(** * swfsm/fsm: composable deciders (deciders.go)

    A shallow embedding of [fsm/deciders.go] and of the dispatcher test that
    comes with it.  Go pointers are [option]s ([None] is the nil
    pointer), Go interface values of type [Outcome] are [option]s as well
    ([None] is the nil interface), and a decider is a computation in a small
    state-and-panic monad: the state is everything a decider can affect besides
    its result (the process log first of all), a panic is Go's [panic]. *)

From Stdlib Require Import ZArith String DecimalString.
From stdpp Require Import gmap strings list.

Set Default Proof Using "Type".

(** ** The parts of aws-sdk-go's [gen/swf] that deciders.go touches *)

Module swf.

Definition EventTypeWorkflowExecutionStarted : string := "WorkflowExecutionStarted".
Definition EventTypeWorkflowExecutionSignaled : string := "WorkflowExecutionSignaled".
Definition EventTypeTimerFired : string := "TimerFired".
Definition EventTypeExternalWorkflowExecutionSignaled : string :=
  "ExternalWorkflowExecutionSignaled".
Definition EventTypeSignalExternalWorkflowExecutionFailed : string :=
  "SignalExternalWorkflowExecutionFailed".

Definition EventTypeChildWorkflowExecutionStarted : string :=
  "ChildWorkflowExecutionStarted".
Definition EventTypeActivityTaskCompleted : string := "ActivityTaskCompleted".
Definition EventTypeActivityTaskFailed : string := "ActivityTaskFailed".
Definition EventTypeActivityTaskTimedOut : string := "ActivityTaskTimedOut".
Definition EventTypeActivityTaskCanceled : string := "ActivityTaskCanceled".

Definition DecisionTypeStartTimer : string := "StartTimer".
Definition DecisionTypeSignalExternalWorkflowExecution : string :=
  "SignalExternalWorkflowExecution".
Definition DecisionTypeContinueAsNewWorkflowExecution : string :=
  "ContinueAsNewWorkflowExecution".

Record TimerFiredEventAttributes := {
  tf_TimerID : option string;
  tf_StartedEventID : option Z }.

Record WorkflowExecutionSignaledEventAttributes := {
  ws_SignalName : option string;
  ws_Input : option string }.

(** Neither of the two "signal sent" attribute structs names the signal:
    they point at the initiating event. *)
Record ExternalWorkflowExecutionSignaledEventAttributes := {
  es_InitiatedEventID : option Z }.

Record SignalExternalWorkflowExecutionFailedEventAttributes := {
  sf_InitiatedEventID : option Z;
  sf_Cause : option string }.

Record HistoryEvent := {
  EventType : option string;
  EventID : option Z;
  TimerFiredEventAttributes_ : option TimerFiredEventAttributes;
  WorkflowExecutionSignaledEventAttributes_ :
    option WorkflowExecutionSignaledEventAttributes;
  ExternalWorkflowExecutionSignaledEventAttributes_ :
    option ExternalWorkflowExecutionSignaledEventAttributes;
  SignalExternalWorkflowExecutionFailedEventAttributes_ :
    option SignalExternalWorkflowExecutionFailedEventAttributes }.

Record StartTimerDecisionAttributes := {
  st_StartToFireTimeout : option string;
  st_TimerID : option string }.

Record SignalExternalWorkflowExecutionDecisionAttributes := {
  se_SignalName : option string;
  se_WorkflowID : option string;
  se_RunID : option string }.

Record ContinueAsNewWorkflowExecutionDecisionAttributes := {
  ca_Input : option string }.

Record Decision := {
  DecisionType : option string;
  StartTimerDecisionAttributes_ : option StartTimerDecisionAttributes;
  SignalExternalWorkflowExecutionDecisionAttributes_ :
    option SignalExternalWorkflowExecutionDecisionAttributes;
  ContinueAsNewWorkflowExecutionDecisionAttributes_ :
    option ContinueAsNewWorkflowExecutionDecisionAttributes }.

Record ActivityType := {
  at_Name : option string;
  at_Version : option string }.

Record DecisionTask := {
  TaskToken : option string;
  Events : list HistoryEvent }.

End swf.

(** [strconv.Itoa] on a Go [int]. *)
Definition Itoa (i : Z) : string := NilZero.string_of_int (Z.to_int i).

(** ** Panics and the decider monad *)

(** Why [typeCheck] panicked: one constructor per [panic] of the function. *)
Inductive TypeCheckFailure :=
| KindNotFunc
| InputArity (got want : nat)
| ArgumentType (i : nat) (got want : string)
| ReturnArity (got want : nat)
| ReturnType (i : nat) (got want : string).

Inductive PanicValue :=
| NilDereference
| TypeCheck (why : TypeCheckFailure)
| IndexOutOfRange
| TypeAssertion
| UserPanic (msg : string).

Inductive Exc (A : Type) :=
| Ok (a : A)
| Panic (p : PanicValue).
Arguments Ok {A} a.
Arguments Panic {A} p.

Definition M (World A : Type) : Type := World -> World * Exc A.

Definition ret {World A} (a : A) : M World A := fun w => (w, Ok a).

Definition panic {World A} (p : PanicValue) : M World A := fun w => (w, Panic p).

Definition bind {World A B} (m : M World A) (k : A -> M World B) : M World B :=
  fun w => match m w with
           | (w', Ok a) => k a w'
           | (w', Panic p) => (w', Panic p)
           end.

Declare Scope go_scope.
Delimit Scope go_scope with go.
Notation "x <- m ;; k" := (bind m (fun x => k))
  (at level 100, m at next level, right associativity) : go_scope.
Notation "m ;;; k" := (bind m (fun _ => k))
  (at level 100, right associativity) : go_scope.
Open Scope go_scope.

(** [*p] for a pointer [p]. *)
Definition deref {World A} (p : option A) : M World A :=
  match p with
  | Some a => ret a
  | None => panic NilDereference
  end.

(** What [logf] hands to the standard logger: the values it formats. *)
Record LogRecord := {
  log_workflow : string;
  log_workflowID : option string;
  log_state : string;
  log_format : string }.

(** The process-wide logger behind [log.Printf]. *)
Class Logger (World : Type) := log_Printf : LogRecord -> World -> World.

#[export] Instance list_Logger : Logger (list LogRecord) := fun r w => w ++ [r].

(** ** The parts of [reflect] that [typeCheck] uses *)

Module reflect.

(** [reflect.Kind], as far as [typeCheck] tells kinds apart. *)
Inductive Kind :=
| Func
| Ptr
| Struct
| Interface
| Slice
| OtherKind (name : string).

Definition Kind_eqb (a b : Kind) : bool :=
  match a, b with
  | Func, Func | Ptr, Ptr | Struct, Struct | Interface, Interface
  | Slice, Slice => true
  | OtherKind x, OtherKind y => String.eqb x y
  | _, _ => false
  end.

(** [reflect.Type]: its kind, its [String()] and, for a function type, the
    parameter and result types. *)
#[local] Unset Elimination Schemes.
Inductive rtype := Rtype (kind : Kind) (str : string) (ins outs : list rtype).
#[local] Set Elimination Schemes.

Definition Kind_ (t : rtype) : Kind := let (k, _, _, _) := t in k.
Definition String_ (t : rtype) : string := let (_, s, _, _) := t in s.
Definition ins (t : rtype) : list rtype := let (_, _, i, _) := t in i.
Definition outs (t : rtype) : list rtype := let (_, _, _, o) := t in o.
Definition NumIn (t : rtype) : nat := length (ins t).
Definition NumOut (t : rtype) : nat := length (outs t).

(** [t.In(i)] and [t.Out(i)] panic out of range. *)
Definition In {World} (t : rtype) (i : nat) : M World rtype :=
  match ins t !! i with
  | Some a => ret a
  | None => panic IndexOutOfRange
  end.

Definition Out {World} (t : rtype) (i : nat) : M World rtype :=
  match outs t !! i with
  | Some a => ret a
  | None => panic IndexOutOfRange
  end.

End reflect.

(** ** Outcomes and the execution context *)

(** Modelled from the spec: the [Outcome] interface, its implementations and
    the [Pass] sentinel are declared outside deciders.go.  The data model
    gives exactly four shapes: Pass carries nothing, Continue carries
    (decisions, data), Transition carries (decisions, data, target state),
    Complete carries (decisions, final data). *)
Inductive OutcomeValue (Data : Type) :=
| PassOutcome
| ContinueOutcome (data : Data) (decisions : list swf.Decision)
| TransitionOutcome (data : Data) (state : string) (decisions : list swf.Decision)
| CompleteOutcome (data : Data) (decisions : list swf.Decision).
Arguments PassOutcome {Data}.
Arguments ContinueOutcome {Data} data decisions.
Arguments TransitionOutcome {Data} data state decisions.
Arguments CompleteOutcome {Data} data decisions.

(** A Go value of interface type [Outcome]; [None] is the nil interface. *)
Definition Outcome (Data : Type) : Type := option (OutcomeValue Data).

(** Modelled from the spec: [Pass] is declared outside deciders.go.  It is
    the outcome that carries nothing, one of the four shapes. *)
Definition Pass {Data} : Outcome Data := Some PassOutcome.

(** Modelled from the spec: [FSMContext] is declared outside deciders.go.
    The fields are the ones deciders.go reads: the workflow type's name, the
    workflow and run identifiers, the current state name and the registry of
    outstanding activities behind [ActivitiesInfo]. *)
Record FSMContext := {
  WorkflowType_Name : option string;
  WorkflowID : option string;
  RunID : option string;
  State : string;
  ActivitiesInfo : gmap string swf.ActivityType }.

(** Modelled from the spec: [FSMContext.EmptyDecisions] is the empty decision
    sequence. *)
Definition FSMContext_EmptyDecisions (ctx : FSMContext) : list swf.Decision := [].

(** Modelled from the spec: [FSMContext.ContinueDecision] wraps data and
    decisions into a Continue outcome. *)
Definition FSMContext_ContinueDecision {Data} (ctx : FSMContext) (data : Data)
    (decisions : list swf.Decision) : Outcome Data :=
  Some (ContinueOutcome data decisions).

(** Modelled from the spec: [FSMContext.Goto] wraps state, data and decisions
    into a Transition outcome. *)
Definition FSMContext_Goto {Data} (ctx : FSMContext) (state : string) (data : Data)
    (decisions : list swf.Decision) : Outcome Data :=
  Some (TransitionOutcome data state decisions).

(** Modelled from the spec: [FSMContext.ContinueWorkflowDecision] is the
    continue-as-new decision pre-filled with the given state name. *)
Definition FSMContext_ContinueWorkflowDecision (ctx : FSMContext)
    (continuedState : string) : swf.Decision :=
  {| swf.DecisionType := Some swf.DecisionTypeContinueAsNewWorkflowExecution;
     swf.StartTimerDecisionAttributes_ := None;
     swf.SignalExternalWorkflowExecutionDecisionAttributes_ := None;
     swf.ContinueAsNewWorkflowExecutionDecisionAttributes_ :=
       Some {| swf.ca_Input := Some continuedState |} |}.

(** The decisions an outcome contributes to a composition. *)
Definition contributed {Data} (o : OutcomeValue Data) : list swf.Decision :=
  match o with
  | PassOutcome => []
  | ContinueOutcome _ decisions => decisions
  | TransitionOutcome _ _ decisions => decisions
  | CompleteOutcome _ decisions => decisions
  end.

Definition isTransitionOutcome {Data} (o : Outcome Data) : bool :=
  match o with Some (TransitionOutcome _ _ _) => true | _ => false end.

Definition isCompleteOutcome {Data} (o : Outcome Data) : bool :=
  match o with Some (CompleteOutcome _ _) => true | _ => false end.

Section Deciders.

Context {Data World : Type} `{!Logger World}.

(** What [State()] answers on a Complete outcome; the method is declared
    outside deciders.go. *)
Variable CompleteState : string.

(** What [State()] answers on the outcome that [FSMContext.Stay] builds for a
    context, the way such an outcome says that the state does not change; the
    method is declared outside deciders.go. *)
Variable StayState : FSMContext -> string.

(** Modelled from the spec: [FSMContext.Stay] is declared outside deciders.go.
    Its outcome carries the given data and decisions and leaves the state as
    it is.  [Decide] goes on to the next rule after an outcome of type
    [ContinueOutcome] only, which is what [ContinueDecision] builds, and
    answers every other outcome that is not Pass with a Transition outcome
    made of that outcome's data, [State()] and decisions.  A Stay outcome is
    built by another method, for the catch-all rule that is to come last and
    for the continuation rules, each of which is to emit exactly one
    decision: it ends the pass, and of the four shapes it is the Transition
    shape, to the state it reports. *)
Definition FSMContext_Stay (ctx : FSMContext) (data : Data)
    (decisions : list swf.Decision) : Outcome Data :=
  Some (TransitionOutcome data (StayState ctx) decisions).

Definition Decider : Type :=
  FSMContext -> swf.HistoryEvent -> Data -> M World (Outcome Data).

Record ComposedDecider := {
  deciders : list Decider;
  last : bool }.

(** The [for _, d := range c.deciders] loop of [Decide], with the two
    variables it updates. *)
Fixpoint Decide_range (ds : list Decider) (ctx : FSMContext)
    (h : swf.HistoryEvent) (decisions : list swf.Decision) (data : Data)
    : M World (Outcome Data) :=
  match ds with
  | [] => ret (Some (ContinueOutcome data decisions))
  | d :: ds' =>
      outcome <- d ctx h data ;;
      match outcome with
      | Some PassOutcome => Decide_range ds' ctx h decisions data
      | None =>
          (* outcome.Decisions() on the nil interface *)
          panic NilDereference
      | Some (ContinueOutcome data' decisions') =>
          Decide_range ds' ctx h (decisions ++ decisions') data'
      | Some (TransitionOutcome data' state' decisions') =>
          ret (Some (TransitionOutcome data' state' (decisions ++ decisions')))
      | Some (CompleteOutcome data' decisions') =>
          ret (Some (TransitionOutcome data' CompleteState
                       (decisions ++ decisions')))
      end
  end.

Definition Decide (c : ComposedDecider) : Decider :=
  fun ctx h data =>
    let decisions := FSMContext_EmptyDecisions ctx in
    Decide_range (deciders c) ctx h decisions data.

Definition NewComposedDecider (ds : list Decider) : Decider :=
  Decide {| deciders := ds; last := false |}.

(** [logf]: the prefix dereferences the workflow type's name before anything
    is written; the record keeps the values that are formatted. *)
Definition logf (ctx : FSMContext) (format : string) : M World unit :=
  name <- deref (WorkflowType_Name ctx) ;;
  fun w => (log_Printf {| log_workflow := name;
                          log_workflowID := WorkflowID ctx;
                          log_state := State ctx;
                          log_format := format |} w, Ok tt).

(** *** Event-matching combinators *)

Definition OnSignalReceived (signalName : string) (ds : list Decider) : Decider :=
  fun ctx h data =>
    eventType <- deref (swf.EventType h) ;;
    if String.eqb eventType swf.EventTypeWorkflowExecutionSignaled then
      attrs <- deref (swf.WorkflowExecutionSignaledEventAttributes_ h) ;;
      name <- deref (swf.ws_SignalName attrs) ;;
      if String.eqb name signalName then
        logf ctx "at=on-signal-received" ;;;
        NewComposedDecider ds ctx h data
      else ret Pass
    else ret Pass.

Definition OnSignalSent (signalName : string) (ds : list Decider) : Decider :=
  fun ctx h data =>
    eventType <- deref (swf.EventType h) ;;
    if String.eqb eventType swf.EventTypeExternalWorkflowExecutionSignaled then
      logf ctx "at=on-signal-sent" ;;;
      NewComposedDecider ds ctx h data
    else ret Pass.

Definition OnSignalFailed (signalName : string) (ds : list Decider) : Decider :=
  fun ctx h data =>
    eventType <- deref (swf.EventType h) ;;
    if String.eqb eventType swf.EventTypeSignalExternalWorkflowExecutionFailed then
      logf ctx "at=on-signal-failed" ;;;
      NewComposedDecider ds ctx h data
    else ret Pass.

(** *** Leaf builders *)

Definition DecisionFunc : Type :=
  FSMContext -> swf.HistoryEvent -> Data -> M World swf.Decision.

Definition MultiDecisionFunc : Type :=
  FSMContext -> swf.HistoryEvent -> Data -> M World (list swf.Decision).

Definition PredicateFunc : Type := Data -> M World bool.

Definition AddDecision (decisionFn : DecisionFunc) : Decider :=
  fun ctx h data =>
    let decisions := FSMContext_EmptyDecisions ctx in
    d <- decisionFn ctx h data ;;
    logf ctx "at=decide" ;;;
    let decisions := decisions ++ [d] in
    ret (FSMContext_ContinueDecision ctx data decisions).

Definition AddDecisions (signalFn : MultiDecisionFunc) : Decider :=
  fun ctx h data =>
    let decisions := FSMContext_EmptyDecisions ctx in
    ds <- signalFn ctx h data ;;
    logf ctx "at=decide-many" ;;;
    let decisions := decisions ++ ds in
    ret (FSMContext_ContinueDecision ctx data decisions).

Definition Transition (toState : string) : Decider :=
  fun ctx h data =>
    logf ctx "at=transition" ;;;
    ret (FSMContext_Goto ctx toState data (FSMContext_EmptyDecisions ctx)).

Definition Stay : Decider :=
  fun ctx h data =>
    logf ctx "at=stay" ;;;
    ret (FSMContext_Stay ctx data (FSMContext_EmptyDecisions ctx)).

(** *** Managed continuations *)

(** The reserved timer and signal names; both constants are declared outside
    deciders.go. *)
Variables ContinueTimer ContinueSignal : string.

Definition startContinueTimerDecision (timerRetrySeconds : Z) : swf.Decision :=
  {| swf.DecisionType := Some swf.DecisionTypeStartTimer;
     swf.StartTimerDecisionAttributes_ :=
       Some {| swf.st_StartToFireTimeout := Some (Itoa timerRetrySeconds);
               swf.st_TimerID := Some ContinueTimer |};
     swf.SignalExternalWorkflowExecutionDecisionAttributes_ := None;
     swf.ContinueAsNewWorkflowExecutionDecisionAttributes_ := None |}.

Definition signalContinueDecision (ctx : FSMContext) : swf.Decision :=
  {| swf.DecisionType := Some swf.DecisionTypeSignalExternalWorkflowExecution;
     swf.StartTimerDecisionAttributes_ := None;
     swf.SignalExternalWorkflowExecutionDecisionAttributes_ :=
       Some {| swf.se_SignalName := Some ContinueSignal;
               swf.se_WorkflowID := WorkflowID ctx;
               swf.se_RunID := RunID ctx |};
     swf.ContinueAsNewWorkflowExecutionDecisionAttributes_ := None |}.

Definition handleContinuationTimer (timerRetrySeconds : Z) : Decider :=
  fun ctx h data =>
    eventType <- deref (swf.EventType h) ;;
    matched <- (if String.eqb eventType swf.EventTypeTimerFired then
                  attrs <- deref (swf.TimerFiredEventAttributes_ h) ;;
                  timerID <- deref (swf.tf_TimerID attrs) ;;
                  ret (String.eqb timerID ContinueTimer)
                else ret false) ;;
    if matched : bool then
      if Nat.eqb (size (ActivitiesInfo ctx)) 0 then
        let decisions :=
          FSMContext_EmptyDecisions ctx
            ++ [FSMContext_ContinueWorkflowDecision ctx (State ctx)] in
        ret (FSMContext_Stay ctx data decisions)
      else
        let d := startContinueTimerDecision timerRetrySeconds in
        let decisions := FSMContext_EmptyDecisions ctx ++ [d] in
        ret (FSMContext_Stay ctx data decisions)
    else ret Pass.

Definition handleContinuationSignal (timerRetrySeconds : Z) : Decider :=
  fun ctx h data =>
    eventType <- deref (swf.EventType h) ;;
    matched <- (if String.eqb eventType swf.EventTypeWorkflowExecutionSignaled then
                  attrs <- deref (swf.WorkflowExecutionSignaledEventAttributes_ h) ;;
                  name <- deref (swf.ws_SignalName attrs) ;;
                  ret (String.eqb name ContinueSignal)
                else ret false) ;;
    if matched : bool then
      if Nat.eqb (size (ActivitiesInfo ctx)) 0 then
        let decisions :=
          FSMContext_EmptyDecisions ctx
            ++ [FSMContext_ContinueWorkflowDecision ctx (State ctx)] in
        ret (FSMContext_Stay ctx data decisions)
      else
        let d := startContinueTimerDecision timerRetrySeconds in
        let decisions := FSMContext_EmptyDecisions ctx ++ [d] in
        ret (FSMContext_Stay ctx data decisions)
    else ret Pass.

Definition signalContinuationWhenHistoryLarge (historySize : Z) : Decider :=
  fun ctx h data =>
    eventID <- deref (swf.EventID h) ;;
    if Z.ltb historySize eventID then
      let d := signalContinueDecision ctx in
      let decisions := FSMContext_EmptyDecisions ctx ++ [d] in
      ret (FSMContext_Stay ctx data decisions)
    else ret Pass.

Definition ManagedContinuations (historySize timerRetrySeconds : Z) : Decider :=
  NewComposedDecider
    [ handleContinuationTimer timerRetrySeconds;
      handleContinuationSignal timerRetrySeconds;
      signalContinuationWhenHistoryLarge historySize ].

(** *** Typed building blocks *)

(** A value that crosses the reflection boundary of the typed adapters. *)
Inductive Any :=
| AnyContext (ctx : FSMContext)
| AnyEvent (h : swf.HistoryEvent)
| AnyData (data : Data)
| AnyOutcome (o : Outcome Data)
| AnyDecision (d : swf.Decision)
| AnyDecisions (ds : list swf.Decision)
| AnyBool (b : bool).

(** A callback handed over as [interface{}]: its dynamic type and what
    [reflect.Value.Call] on it does.  [None] is the nil interface. *)
Record Value := {
  TypeOf : reflect.rtype;
  Call : list Any -> M World (list Any) }.

(** The dynamic type of a value handed to [reflect.ValueOf]; [dataType] says
    it for the state data. *)
Definition Any_TypeOf (dataType : Data -> reflect.rtype) (a : Any)
    : reflect.rtype :=
  match a with
  | AnyContext _ => reflect.Rtype reflect.Ptr "*fsm.FSMContext" [] []
  | AnyEvent _ => reflect.Rtype reflect.Struct "swf.HistoryEvent" [] []
  | AnyData data => dataType data
  | AnyOutcome _ => reflect.Rtype reflect.Interface "fsm.Outcome" [] []
  | AnyDecision _ => reflect.Rtype reflect.Struct "swf.Decision" [] []
  | AnyDecisions _ => reflect.Rtype reflect.Slice "[]swf.Decision" [] []
  | AnyBool _ => reflect.Rtype (reflect.OtherKind "bool") "bool" [] []
  end.

(** The first argument that [reflect.Value.Call] refuses, with the parameter
    it was meant for.  A value is not assignable to a parameter of another
    kind, unless the parameter is of an interface type; values of the
    parameter's kind go through here. *)
Fixpoint callUsing (dataType : Data -> reflect.rtype) (args : list Any)
    (params : list reflect.rtype) : option (reflect.rtype * reflect.rtype) :=
  match args, params with
  | a :: args', targ :: params' =>
      let xt := Any_TypeOf dataType a in
      if reflect.Kind_eqb (reflect.Kind_ xt) (reflect.Kind_ targ)
         || reflect.Kind_eqb reflect.Interface (reflect.Kind_ targ)
      then callUsing dataType args' params'
      else Some (xt, targ)
  | _, _ => None
  end.

(** A Go function of type [t] as a callback: [reflect.Value.Call] on it
    panics, before the function runs, when it is given too few or too many
    arguments or one that is not assignable to its parameter, and runs
    [body] otherwise. *)
Definition funcValue (dataType : Data -> reflect.rtype) (t : reflect.rtype)
    (body : list Any -> M World (list Any)) : Value :=
  {| TypeOf := t;
     Call := fun args =>
       if Nat.ltb (length args) (reflect.NumIn t) then
         panic (UserPanic "reflect: Call with too few input arguments")
       else if Nat.ltb (reflect.NumIn t) (length args) then
         panic (UserPanic "reflect: Call with too many input arguments")
       else
         match callUsing dataType args (reflect.ins t) with
         | Some (xt, targ) =>
             panic (UserPanic ("reflect: Call using " ++ reflect.String_ xt
                               ++ " as type " ++ reflect.String_ targ))
         | None => body args
         end |}.

(** [for i, rt := range in { if rt != t.In(i).String() { panic } }] *)
Fixpoint typeCheck_in (t : reflect.rtype) (i : nat) (in_ : list string)
    : M World unit :=
  match in_ with
  | [] => ret tt
  | rt :: rest =>
      ti <- reflect.In t i ;;
      if negb (String.eqb rt (reflect.String_ ti)) then
        panic (TypeCheck (ArgumentType i (reflect.String_ ti) rt))
      else typeCheck_in t (S i) rest
  end.

(** [for i, rt := range out { if rt != t.Out(i).String() { panic } }] *)
Fixpoint typeCheck_out (t : reflect.rtype) (i : nat) (out : list string)
    : M World unit :=
  match out with
  | [] => ret tt
  | rt :: rest =>
      ti <- reflect.Out t i ;;
      if negb (String.eqb rt (reflect.String_ ti)) then
        panic (TypeCheck (ReturnType i (reflect.String_ ti) rt))
      else typeCheck_out t (S i) rest
  end.

Definition typeCheck (typedFunc : option Value) (in_ out : list string)
    : M World unit :=
  (* reflect.TypeOf of the nil interface is nil, and t.Kind() on it panics *)
  t <- deref (TypeOf <$> typedFunc) ;;
  if negb (reflect.Kind_eqb reflect.Func (reflect.Kind_ t)) then
    panic (TypeCheck KindNotFunc)
  else if negb (Nat.eqb (length in_) (reflect.NumIn t)) then
    panic (TypeCheck (InputArity (reflect.NumIn t) (length in_)))
  else
    typeCheck_in t 0 in_ ;;;
    if negb (Nat.eqb (length out) (reflect.NumOut t)) then
      panic (TypeCheck (ReturnArity (reflect.NumOut t) (length out)))
    else typeCheck_out t 0 out.

(** [typed] is only asked for its dynamic type. *)
Record TypedFuncs := { typed : option reflect.rtype }.

Definition Typed (typed : option reflect.rtype) : TypedFuncs :=
  {| typed := typed |}.

Definition typeArg (t : TypedFuncs) : M World string :=
  ty <- deref (typed t) ;;
  ret (reflect.String_ ty).

Record marshalledFunc := { v : option Value }.

(** [m.v.Call(args)[0]] *)
Definition call0 (m : marshalledFunc) (args : list Any) : M World Any :=
  f <- deref (v m) ;;
  rets <- Call f args ;;
  match rets with
  | r :: _ => ret r
  | [] => panic IndexOutOfRange
  end.

Definition marshalledFunc_decider (m : marshalledFunc) : Decider :=
  fun f h data =>
    r <- call0 m [AnyContext f; AnyEvent h; AnyData data] ;;
    match r with
    | AnyOutcome None => ret None
    | AnyOutcome (Some o) => ret (Some o)
    | _ => panic TypeAssertion
    end.

Definition marshalledFunc_decisionFunc (m : marshalledFunc) : DecisionFunc :=
  fun f h data =>
    r <- call0 m [AnyContext f; AnyEvent h; AnyData data] ;;
    match r with
    | AnyDecision d => ret d
    | _ => panic TypeAssertion
    end.

Definition marshalledFunc_multiDecisionFunc (m : marshalledFunc)
    : MultiDecisionFunc :=
  fun f h data =>
    r <- call0 m [AnyContext f; AnyEvent h; AnyData data] ;;
    match r with
    | AnyDecisions ds => ret ds
    | _ => panic TypeAssertion
    end.

Definition StateFunc : Type :=
  FSMContext -> swf.HistoryEvent -> Data -> M World unit.

Definition marshalledFunc_stateFunc (m : marshalledFunc) : StateFunc :=
  fun f h data =>
    fn <- deref (v m) ;;
    Call fn [AnyContext f; AnyEvent h; AnyData data] ;;;
    ret tt.

Definition marshalledFunc_predicateFunc (m : marshalledFunc) : PredicateFunc :=
  fun data =>
    r <- call0 m [AnyData data] ;;
    match r with
    | AnyBool b => ret b
    | _ => panic TypeAssertion
    end.

Definition TypedFuncs_Decider (t : TypedFuncs) (decider : option Value)
    : M World Decider :=
  ta <- typeArg t ;;
  typeCheck decider ["*fsm.FSMContext"; "swf.HistoryEvent"; ta] ["fsm.Outcome"] ;;;
  ret (marshalledFunc_decider {| v := decider |}).

Definition TypedFuncs_DecisionFunc (t : TypedFuncs) (decisionFunc : option Value)
    : M World DecisionFunc :=
  ta <- typeArg t ;;
  typeCheck decisionFunc ["*fsm.FSMContext"; "swf.HistoryEvent"; ta]
    ["swf.Decision"] ;;;
  ret (marshalledFunc_decisionFunc {| v := decisionFunc |}).

Definition TypedFuncs_MultiDecisionFunc (t : TypedFuncs)
    (decisionFunc : option Value) : M World MultiDecisionFunc :=
  ta <- typeArg t ;;
  typeCheck decisionFunc ["*fsm.FSMContext"; "swf.HistoryEvent"; ta]
    ["[]swf.Decision"] ;;;
  ret (marshalledFunc_multiDecisionFunc {| v := decisionFunc |}).

Definition TypedFuncs_StateFunc (t : TypedFuncs) (stateFunc : option Value)
    : M World StateFunc :=
  ta <- typeArg t ;;
  typeCheck stateFunc ["*fsm.FSMContext"; "swf.HistoryEvent"; ta] [] ;;;
  ret (marshalledFunc_stateFunc {| v := stateFunc |}).

Definition TypedFuncs_PredicateFunc (t : TypedFuncs) (stateFunc : option Value)
    : M World PredicateFunc :=
  ta <- typeArg t ;;
  typeCheck stateFunc [ta] ["bool"] ;;;
  ret (marshalledFunc_predicateFunc {| v := stateFunc |}).

(** *** The other event-matching combinators and [UpdateState] *)

Definition OnStarted (ds : list Decider) : Decider :=
  fun ctx h data =>
    eventType <- deref (swf.EventType h) ;;
    if String.eqb eventType swf.EventTypeWorkflowExecutionStarted then
      logf ctx "at=on-started" ;;;
      NewComposedDecider ds ctx h data
    else ret Pass.

Definition OnChildStarted (ds : list Decider) : Decider :=
  fun ctx h data =>
    eventType <- deref (swf.EventType h) ;;
    if String.eqb eventType swf.EventTypeChildWorkflowExecutionStarted then
      logf ctx "at=on-child-started" ;;;
      NewComposedDecider ds ctx h data
    else ret Pass.

Definition OnData (predicate : PredicateFunc) (ds : list Decider) : Decider :=
  fun ctx h data =>
    holds <- predicate data ;;
    if holds : bool then
      logf ctx "at=on-data" ;;;
      NewComposedDecider ds ctx h data
    else ret Pass.

(** [FSMContext.ActivityInfo], declared outside deciders.go: the activity an
    event refers to, as a pointer. *)
Variable FSMContext_ActivityInfo :
  FSMContext -> swf.HistoryEvent -> M World (option swf.ActivityType).

(** [*ctx.ActivityInfo(h).Name == activityName] *)
Definition activityNamed (ctx : FSMContext) (h : swf.HistoryEvent)
    (activityName : string) : M World bool :=
  info <- FSMContext_ActivityInfo ctx h ;;
  activity <- deref info ;;
  name <- deref (swf.at_Name activity) ;;
  ret (String.eqb name activityName).

Definition OnActivityCompleted (activityName : string) (ds : list Decider)
    : Decider :=
  fun ctx h data =>
    eventType <- deref (swf.EventType h) ;;
    if String.eqb eventType swf.EventTypeActivityTaskCompleted then
      named <- activityNamed ctx h activityName ;;
      if named : bool then
        logf ctx "at=on-activity-completed" ;;;
        NewComposedDecider ds ctx h data
      else ret Pass
    else ret Pass.

Definition OnActivityFailed (activityName : string) (ds : list Decider)
    : Decider :=
  fun ctx h data =>
    eventType <- deref (swf.EventType h) ;;
    if String.eqb eventType swf.EventTypeActivityTaskFailed
       || String.eqb eventType swf.EventTypeActivityTaskTimedOut
       || String.eqb eventType swf.EventTypeActivityTaskCanceled then
      named <- activityNamed ctx h activityName ;;
      if named : bool then
        logf ctx "at=on-activity-failed" ;;;
        NewComposedDecider ds ctx h data
      else ret Pass
    else ret Pass.

(** The state data is handed around as a pointer: [updateFunc] changes what
    it points to, in the world, and the outcome carries the same pointer. *)
Definition UpdateState (updateFunc : StateFunc) : Decider :=
  fun ctx h data =>
    logf ctx "at=update-state" ;;;
    updateFunc ctx h data ;;;
    ret (FSMContext_ContinueDecision ctx data (FSMContext_EmptyDecisions ctx)).

(** The rule that ended a composition: it returned Transition or Complete. *)
Definition ends (o : OutcomeValue Data) : bool :=
  isTransitionOutcome (Some o) || isCompleteOutcome (Some o).

(** The world after the log lines of [formats], in order, for context [ctx]
    whose workflow type is named [name]. *)
Definition logged (ctx : FSMContext) (name : string) (formats : list string)
    (w : World) : World :=
  foldl (fun w format =>
           log_Printf {| log_workflow := name;
                         log_workflowID := WorkflowID ctx;
                         log_state := State ctx;
                         log_format := format |} w)
        w formats.

(** *** Observers used to state properties of the code above *)

(** Runs the rules of [ds] in order from [data] and [w] as [Decide] does
    while each of them returns Pass or Continue: the outcomes they returned,
    the data and the world they left.  [None] when a rule of [ds] returns
    anything else or panics. *)
Fixpoint fold_through (ds : list Decider) (ctx : FSMContext)
    (h : swf.HistoryEvent) (data : Data) (w : World)
    : option (list (OutcomeValue Data) * Data * World) :=
  match ds with
  | [] => Some ([], data, w)
  | d :: ds' =>
      match d ctx h data w with
      | (w1, Ok (Some PassOutcome)) =>
          match fold_through ds' ctx h data w1 with
          | Some (os, data', w') => Some (PassOutcome :: os, data', w')
          | None => None
          end
      | (w1, Ok (Some (ContinueOutcome data1 decisions1))) =>
          match fold_through ds' ctx h data1 w1 with
          | Some (os, data', w') =>
              Some (ContinueOutcome data1 decisions1 :: os, data', w')
          | None => None
          end
      | _ => None
      end
  end.

(** The one decision of a continuation rule whose event matched:
    continue-as-new with the current state name when no activity is
    outstanding, the retry timer otherwise. *)
Definition continuationDecision (timerRetrySeconds : Z) (ctx : FSMContext)
    : swf.Decision :=
  if decide (ActivitiesInfo ctx = ∅) then
    FSMContext_ContinueWorkflowDecision ctx (State ctx)
  else startContinueTimerDecision timerRetrySeconds.

(** A rule list with marked positions: [None] marks a position, [Some d]
    holds the rule [d] of an unmarked one.  [fill p] puts the rule [p] at
    every marked position, [strip] leaves the marked positions out. *)
Definition fill (p : Decider) (slots : list (option Decider)) : list Decider :=
  default p <$> slots.

Definition strip (slots : list (option Decider)) : list Decider :=
  omap id slots.

(** The rules of [ds], numbered from [i], with the rule [p] in place of those
    whose position is in [positions]. *)
Fixpoint replaceAt (positions : gset nat) (p : Decider) (i : nat)
    (ds : list Decider) : list Decider :=
  match ds with
  | [] => []
  | d :: ds' =>
      (if bool_decide (i ∈ positions) then p else d)
        :: replaceAt positions p (S i) ds'
  end.

(** The rules of [ds], numbered from [i], without those whose position is in
    [positions]. *)
Fixpoint removeAt (positions : gset nat) (i : nat) (ds : list Decider)
    : list Decider :=
  match ds with
  | [] => []
  | d :: ds' =>
      if bool_decide (i ∈ positions) then removeAt positions (S i) ds'
      else d :: removeAt positions (S i) ds'
  end.

(** The rules of [ds], numbered from [i], those at [positions] marked. *)
Fixpoint markAt (positions : gset nat) (i : nat) (ds : list Decider)
    : list (option Decider) :=
  match ds with
  | [] => []
  | d :: ds' =>
      (if bool_decide (i ∈ positions) then None else Some d)
        :: markAt positions (S i) ds'
  end.

(** The callback is a function whose parameter and result types print as
    [in_] and [out]. *)
Definition signatureMatches (typedFunc : option Value) (in_ out : list string)
    : bool :=
  match typedFunc with
  | None => false
  | Some f =>
      reflect.Kind_eqb reflect.Func (reflect.Kind_ (TypeOf f))
      && bool_decide (reflect.String_ <$> reflect.ins (TypeOf f) = in_)
      && bool_decide (reflect.String_ <$> reflect.outs (TypeOf f) = out)
  end.

(** Construction [m] from world [w]: it returns [a] when [expected], and
    panics otherwise; either way nothing else has happened. *)
Definition constructs {A} (m : M World A) (w : World) (expected : bool) (a : A)
    : Prop :=
  if expected then m w = (w, Ok a) else exists p, m w = (w, Panic p).

(** What a rule's result makes [Decide] panic with, if anything: the rule's
    own panic, or the nil dereference on a nil outcome. *)
Definition panics_with (r : Exc (Outcome Data)) : option PanicValue :=
  match r with
  | Panic p => Some p
  | Ok None => Some NilDereference
  | Ok (Some _) => None
  end.

(** A decision function without effects. *)
Definition pureDecision (f : FSMContext -> swf.HistoryEvent -> Data -> swf.Decision)
    : DecisionFunc :=
  fun ctx h data => ret (f ctx h data).

(** The event is the reserved continue timer firing. *)
Definition isContinueTimerFired (h : swf.HistoryEvent) : bool :=
  match swf.EventType h, swf.TimerFiredEventAttributes_ h with
  | Some eventType, Some attrs =>
      String.eqb eventType swf.EventTypeTimerFired
      && match swf.tf_TimerID attrs with
         | Some timerID => String.eqb timerID ContinueTimer
         | None => false
         end
  | _, _ => false
  end.

(** The event is the reserved continue signal arriving. *)
Definition isContinueSignaled (h : swf.HistoryEvent) : bool :=
  match swf.EventType h, swf.WorkflowExecutionSignaledEventAttributes_ h with
  | Some eventType, Some attrs =>
      String.eqb eventType swf.EventTypeWorkflowExecutionSignaled
      && match swf.ws_SignalName attrs with
         | Some name => String.eqb name ContinueSignal
         | None => false
         end
  | _, _ => false
  end.

(** The event carries every field that the rules of [ManagedContinuations]
    read before the pass ends: its type; the attributes and timer identifier
    of a timer-fired event, the attributes and signal name of a signaled
    event; and its identifier, unless the event is the reserved continue
    timer firing or the reserved continue signal arriving. *)
Definition continuationReadable (h : swf.HistoryEvent) : bool :=
  match swf.EventType h with
  | None => false
  | Some eventType =>
      if String.eqb eventType swf.EventTypeTimerFired then
        match swf.TimerFiredEventAttributes_ h with
        | Some attrs =>
            match swf.tf_TimerID attrs with
            | Some timerID =>
                String.eqb timerID ContinueTimer
                || bool_decide (is_Some (swf.EventID h))
            | None => false
            end
        | None => false
        end
      else if String.eqb eventType swf.EventTypeWorkflowExecutionSignaled then
        match swf.WorkflowExecutionSignaledEventAttributes_ h with
        | Some attrs =>
            match swf.ws_SignalName attrs with
            | Some name =>
                String.eqb name ContinueSignal
                || bool_decide (is_Some (swf.EventID h))
            | None => false
            end
        | None => false
        end
      else bool_decide (is_Some (swf.EventID h))
  end.

(** How a run of the rules [ds] goes: they all pass or continue; or a rule
    reached through passes and continues ends the composition; or such a rule
    panics or returns nil. *)
Inductive Run (ctx : FSMContext) (h : swf.HistoryEvent) (ds : list Decider)
    (data : Data) (w : World) : Prop :=
| Run_through os data' w' :
    fold_through ds ctx h data w = Some (os, data', w') ->
    Run ctx h ds data w
| Run_ends pre d post os data1 w1 w' o dat st :
    ds = pre ++ d :: post ->
    fold_through pre ctx h data w = Some (os, data1, w1) ->
    d ctx h data1 w1 = (w', Ok (Some o)) ->
    ends o = true ->
    (forall decisions post',
        Decide_range (d :: post') ctx h decisions data1 w1
        = (w', Ok (Some (TransitionOutcome dat st (decisions ++ contributed o))))) ->
    Run ctx h ds data w
| Run_panics pre d post os data1 w1 p :
    ds = pre ++ d :: post ->
    fold_through pre ctx h data w = Some (os, data1, w1) ->
    panics_with (snd (d ctx h data1 w1)) = Some p ->
    (forall decisions post',
        Decide_range (d :: post') ctx h decisions data1 w1
        = (fst (d ctx h data1 w1), Panic p)) ->
    Run ctx h ds data w.

End Deciders.

(** The event carries what the decider stack dereferences: its type and
    identifier, and the attributes that go with a timer-fired or a signaled
    event. *)
Definition wellFormed (h : swf.HistoryEvent) : bool :=
  match swf.EventType h, swf.EventID h with
  | Some eventType, Some _ =>
      (if String.eqb eventType swf.EventTypeTimerFired then
         match swf.TimerFiredEventAttributes_ h with
         | Some attrs => bool_decide (is_Some (swf.tf_TimerID attrs))
         | None => false
         end
       else true)
      && (if String.eqb eventType swf.EventTypeWorkflowExecutionSignaled then
            match swf.WorkflowExecutionSignaledEventAttributes_ h with
            | Some attrs => bool_decide (is_Some (swf.ws_SignalName attrs))
            | None => false
            end
          else true)
  | _, _ => false
  end.

(** ** The decision-task dispatcher *)

Section Dispatcher.

Context {World : Type}.

Definition Handler : Type := swf.DecisionTask -> M World unit.

(** The [DecisionTaskDispatcher] interface: its one method. *)
Definition DecisionTaskDispatcher : Type :=
  swf.DecisionTask -> Handler -> M World unit.

(** Modelled from the spec: [CallingGoroutineDispatcher.DispatchTask] is
    declared outside deciders.go and the dispatcher test.  Inline policy: handler(task) is
    invoked synchronously on the caller's thread of execution before
    DispatchTask returns. *)
Definition CallingGoroutineDispatcher_DispatchTask : DecisionTaskDispatcher :=
  fun task handler => handler task.

(** A handler that also records each of its invocations. *)
Definition recording (handler : Handler)
    : swf.DecisionTask -> M (World * list swf.DecisionTask) unit :=
  fun task '(w, calls) =>
    let (w', r) := handler task w in ((w', calls ++ [task]), r).

End Dispatcher.

(** *** [testDispatcher] of the dispatcher test *)

(** What the test's handler shares with the test body: the [int32] counter and
    the [done] channel of capacity one. *)
Record TestState := {
  tasksHandled : Z;
  done : list unit }.

(** [int32] wrap-around. *)
Definition int32 (z : Z) : Z := (z + 2 ^ 31) mod 2 ^ 32 - 2 ^ 31.

Definition testHandler (totalTasks : Z) : swf.DecisionTask -> M TestState unit :=
  fun d s =>
    let handled := int32 (tasksHandled s + 1) in
    if Z.eqb handled totalTasks then
      if Nat.ltb (length (done s)) 1 then
        ({| tasksHandled := handled; done := done s ++ [tt] |}, Ok tt)
      else
        (* the send blocks for good: nothing reads the channel before the
           loop is over *)
        ({| tasksHandled := handled; done := done s |}, Panic (UserPanic "deadlock"))
    else ({| tasksHandled := handled; done := done s |}, Ok tt).

(** [for i := int32(0); i < totalTasks; i++ { dispatcher.DispatchTask(...) }],
    by the number of iterations left. *)
Fixpoint dispatchLoop (dispatcher : @DecisionTaskDispatcher TestState)
    (task : swf.DecisionTask) (handler : @Handler TestState) (n : nat)
    : M TestState unit :=
  match n with
  | O => ret tt
  | S n' =>
      dispatcher task handler ;;;
      dispatchLoop dispatcher task handler n'
  end.

(** The test body; [true] when [<-done] is ready at the [select], [false]
    when only the timeout is. *)
Definition testDispatcher (dispatcher : @DecisionTaskDispatcher TestState)
    : TestState * Exc bool :=
  let task := {| swf.TaskToken := None; swf.Events := [] |} in
  let tasksHandled0 := int32 0 in
  let totalTasks := int32 1000 in
  let done0 := [] in
  (dispatchLoop dispatcher task (testHandler totalTasks) (Z.to_nat totalTasks) ;;;
   fun s => (s, Ok (negb (Nat.eqb (length (done s)) 0))))
    {| tasksHandled := tasksHandled0; done := done0 |}.

(** * Concrete inputs *)

Module Examples.

(** State data is a counter, the world is the log. *)
Definition World : Type := list LogRecord.

Definition CompleteState : string := "complete".

(** A Stay outcome reports the state the context is in. *)
Definition StayState (ctx : FSMContext) : string := State ctx.

Definition ContinueTimer : string := "FSM.ContinueWorkflow".
Definition ContinueSignal : string := "FSM.ContinueWorkflow".

Definition idle : FSMContext :=
  {| WorkflowType_Name := Some "orders";
     WorkflowID := Some "order-17";
     RunID := Some "run-1";
     State := "working";
     ActivitiesInfo := ∅ |}.

Definition busy : FSMContext :=
  {| WorkflowType_Name := Some "orders";
     WorkflowID := Some "order-17";
     RunID := Some "run-1";
     State := "working";
     ActivitiesInfo :=
       {[ "7" := {| swf.at_Name := Some "charge"; swf.at_Version := Some "1" |} ]} |}.

Definition event (eventType : string) (N : Z) : swf.HistoryEvent :=
  {| swf.EventType := Some eventType;
     swf.EventID := Some N;
     swf.TimerFiredEventAttributes_ := None;
     swf.WorkflowExecutionSignaledEventAttributes_ := None;
     swf.ExternalWorkflowExecutionSignaledEventAttributes_ := None;
     swf.SignalExternalWorkflowExecutionFailedEventAttributes_ := None |}.

Definition continueTimerAttributes : swf.TimerFiredEventAttributes :=
  {| swf.tf_TimerID := Some ContinueTimer; swf.tf_StartedEventID := Some 3%Z |}.

Definition continueTimerFired (N : Z) : swf.HistoryEvent :=
  {| swf.EventType := Some swf.EventTypeTimerFired;
     swf.EventID := Some N;
     swf.TimerFiredEventAttributes_ := Some continueTimerAttributes;
     swf.WorkflowExecutionSignaledEventAttributes_ := None;
     swf.ExternalWorkflowExecutionSignaledEventAttributes_ := None;
     swf.SignalExternalWorkflowExecutionFailedEventAttributes_ := None |}.

Definition signalSent (initiated : Z) : swf.HistoryEvent :=
  {| swf.EventType := Some swf.EventTypeExternalWorkflowExecutionSignaled;
     swf.EventID := Some 9%Z;
     swf.TimerFiredEventAttributes_ := None;
     swf.WorkflowExecutionSignaledEventAttributes_ := None;
     swf.ExternalWorkflowExecutionSignaledEventAttributes_ :=
       Some {| swf.es_InitiatedEventID := Some initiated |};
     swf.SignalExternalWorkflowExecutionFailedEventAttributes_ := None |}.

Definition signalFailed (initiated : Z) : swf.HistoryEvent :=
  {| swf.EventType := Some swf.EventTypeSignalExternalWorkflowExecutionFailed;
     swf.EventID := Some 9%Z;
     swf.TimerFiredEventAttributes_ := None;
     swf.WorkflowExecutionSignaledEventAttributes_ := None;
     swf.ExternalWorkflowExecutionSignaledEventAttributes_ := None;
     swf.SignalExternalWorkflowExecutionFailedEventAttributes_ :=
       Some {| swf.sf_InitiatedEventID := Some initiated;
               swf.sf_Cause := Some "UNKNOWN_EXTERNAL_WORKFLOW_EXECUTION" |} |}.

Definition decision (decisionType : string) : swf.Decision :=
  {| swf.DecisionType := Some decisionType;
     swf.StartTimerDecisionAttributes_ := None;
     swf.SignalExternalWorkflowExecutionDecisionAttributes_ := None;
     swf.ContinueAsNewWorkflowExecutionDecisionAttributes_ := None |}.

(** Rules, one per kind of outcome. *)
Definition passes : @Decider Z World := fun ctx h data => ret Pass.

Definition schedules : @Decider Z World :=
  fun ctx h data =>
    ret (FSMContext_ContinueDecision ctx (data + 1)%Z
           [decision "ScheduleActivityTask"]).

Definition ships : @Decider Z World :=
  fun ctx h data =>
    ret (FSMContext_Goto ctx "shipped" data [decision "RecordMarker"]).

Definition completes : @Decider Z World :=
  fun ctx h data =>
    ret (Some (CompleteOutcome data [decision "CompleteWorkflowExecution"])).

Definition returnsNil : @Decider Z World := fun ctx h data => ret None.

Definition crashes : @Decider Z World :=
  fun ctx h data => panic (UserPanic "no such order").

Definition activityCompleted : swf.HistoryEvent :=
  event "ActivityTaskCompleted" 5.

Definition order : @ComposedDecider Z World :=
  {| deciders := [schedules; passes; completes; ships]; last := false |}.

Definition shipping : @ComposedDecider Z World :=
  {| deciders := [schedules; passes; ships; completes]; last := false |}.

Definition closing : @ComposedDecider Z World :=
  {| deciders := [completes]; last := false |}.

Definition nothing : @ComposedDecider Z World :=
  {| deciders := [passes; passes]; last := false |}.

Definition slots : list (option (@Decider Z World)) :=
  [None; Some schedules; None; Some ships; None].

Definition padded : @ComposedDecider Z World :=
  {| deciders := [passes; schedules; passes; ships; passes]; last := false |}.

Definition bare : @ComposedDecider Z World :=
  {| deciders := [schedules; ships]; last := false |}.

Definition order5 : @ComposedDecider Z World :=
  {| deciders := [completes; schedules; returnsNil; ships; completes];
     last := false |}.

(** Types as [reflect] prints them, and two callbacks for [Typed(new(Z))]. *)
Definition named (kind : reflect.Kind) (str : string) : reflect.rtype :=
  reflect.Rtype kind str [] [].

Definition payloadType : reflect.rtype := named reflect.Ptr "*fsm.TestingType".

Definition deciderType (payload : reflect.rtype) : reflect.rtype :=
  reflect.Rtype reflect.Func
    "func(*fsm.FSMContext, swf.HistoryEvent, *fsm.TestingType) fsm.Outcome"
    [named reflect.Ptr "*fsm.FSMContext"; named reflect.Struct "swf.HistoryEvent";
     payload]
    [named reflect.Interface "fsm.Outcome"].

(** The typed decider of the package's own test: it returns nil. *)
Definition TestingDecider : @Value Z World :=
  {| TypeOf := deciderType payloadType;
     Call := fun args => ret [AnyOutcome None] |}.

(** A callback that takes the payload by value instead. *)
Definition byValueDecider : @Value Z World :=
  {| TypeOf := deciderType (named reflect.Struct "fsm.TestingType");
     Call := fun args => ret [AnyOutcome None] |}.

(** The type [HistoryEvent] of another package that is named swf as well,
    declared there as [type HistoryEvent int]. *)
Definition otherHistoryEvent : reflect.rtype :=
  named (reflect.OtherKind "int") "swf.HistoryEvent".

(** A Go function over that type in the place of the event; it would pass. *)
Definition impostorDecider : @Value Z World :=
  funcValue (fun _ => payloadType)
    (reflect.Rtype reflect.Func
       "func(*fsm.FSMContext, swf.HistoryEvent, *fsm.TestingType) fsm.Outcome"
       [named reflect.Ptr "*fsm.FSMContext"; otherHistoryEvent; payloadType]
       [named reflect.Interface "fsm.Outcome"])
    (fun args => ret [AnyOutcome Pass]).

Definition task : swf.DecisionTask :=
  {| swf.TaskToken := Some "token"; swf.Events := [event "DecisionTaskStarted" 3] |}.

Definition logsTask : @Handler World :=
  fun d w =>
    (w ++ [{| log_workflow := "orders"; log_workflowID := swf.TaskToken d;
              log_state := ""; log_format := "at=handle" |}], Ok tt).

(** A context whose workflow type has no name. *)
Definition anonymous : FSMContext :=
  {| WorkflowType_Name := None;
     WorkflowID := Some "order-17";
     RunID := Some "run-1";
     State := "working";
     ActivitiesInfo := ∅ |}.

Definition started : swf.HistoryEvent :=
  event swf.EventTypeWorkflowExecutionStarted 1.

Definition timedOut : swf.HistoryEvent :=
  event swf.EventTypeActivityTaskTimedOut 8.

Definition continueSignaled (N : Z) : swf.HistoryEvent :=
  {| swf.EventType := Some swf.EventTypeWorkflowExecutionSignaled;
     swf.EventID := Some N;
     swf.TimerFiredEventAttributes_ := None;
     swf.WorkflowExecutionSignaledEventAttributes_ :=
       Some {| swf.ws_SignalName := Some ContinueSignal; swf.ws_Input := None |};
     swf.ExternalWorkflowExecutionSignaledEventAttributes_ := None;
     swf.SignalExternalWorkflowExecutionFailedEventAttributes_ := None |}.

(** Every event refers to the one outstanding activity, if there is one. *)
Definition activityInfo (ctx : FSMContext) (h : swf.HistoryEvent)
    : M World (option swf.ActivityType) :=
  ret (ActivitiesInfo ctx !! "7").

Definition charge : swf.ActivityType :=
  {| swf.at_Name := Some "charge"; swf.at_Version := Some "1" |}.

Definition decisionFns : list (FSMContext -> swf.HistoryEvent -> Z -> swf.Decision) :=
  [ (fun ctx h data => decision "ScheduleActivityTask");
    (fun ctx h data => decision "RecordMarker") ].

Definition line (format : string) : LogRecord :=
  {| log_workflow := "orders"; log_workflowID := Some "order-17";
     log_state := "working"; log_format := format |}.

(** A state function; its update shows as a line of the world. *)
Definition touches : @StateFunc Z World :=
  fun ctx h data w => (w ++ [line "touched"], Ok tt).

End Examples.

(** * Properties *)

Section DeciderFacts.

Context {Data World : Type} `{!Logger World}.
Variables CompleteState ContinueTimer ContinueSignal : string.
Variable StayState : FSMContext -> string.

Local Abbreviation Decider := (@Decider Data World).
Local Abbreviation Decide := (@Decide Data World CompleteState).
Local Abbreviation Decide_range := (@Decide_range Data World CompleteState).
Local Abbreviation NewComposedDecider :=
  (@NewComposedDecider Data World CompleteState).
Local Abbreviation OnSignalSent := (@OnSignalSent Data World _ CompleteState).
Local Abbreviation OnSignalFailed := (@OnSignalFailed Data World _ CompleteState).
Local Abbreviation FSMContext_Stay := (@FSMContext_Stay Data StayState).
Local Abbreviation handleContinuationTimer :=
  (@handleContinuationTimer Data World StayState ContinueTimer).
Local Abbreviation handleContinuationSignal :=
  (@handleContinuationSignal Data World StayState ContinueTimer ContinueSignal).
Local Abbreviation signalContinuationWhenHistoryLarge :=
  (@signalContinuationWhenHistoryLarge Data World StayState ContinueSignal).
Local Abbreviation ManagedContinuations :=
  (@ManagedContinuations Data World CompleteState StayState ContinueTimer
     ContinueSignal).
Local Abbreviation isContinueTimerFired := (isContinueTimerFired ContinueTimer).
Local Abbreviation isContinueSignaled := (isContinueSignaled ContinueSignal).
Local Abbreviation Value := (@Value Data World).
Local Abbreviation typeCheck := (@typeCheck Data World).
Local Abbreviation signatureMatches := (@signatureMatches Data World).
Local Abbreviation TypedFuncs_Decider := (@TypedFuncs_Decider Data World).
Local Abbreviation marshalledFunc_decider := (@marshalledFunc_decider Data World).
Local Abbreviation startContinueTimerDecision :=
  (startContinueTimerDecision ContinueTimer).
Local Abbreviation signalContinueDecision :=
  (signalContinueDecision ContinueSignal).
Local Abbreviation continuationDecision := (continuationDecision ContinueTimer).

Implicit Types (ds pre post : list Decider) (d : Decider).
Implicit Types (c : @ComposedDecider Data World).
Implicit Types (ctx : FSMContext) (h : swf.HistoryEvent) (data : Data).
Implicit Types (w : World) (decisions : list swf.Decision).

(** *** The monad *)

Lemma bind_Ok {A B} (m : M World A) (k : A -> M World B) w w' a :
  m w = (w', Ok a) -> bind m k w = k a w'.
Proof. unfold bind. intros ->. reflexivity. Qed.

Lemma bind_Panic {A B} (m : M World A) (k : A -> M World B) w w' p :
  m w = (w', Panic p) -> bind m k w = (w', Panic p).
Proof. unfold bind. intros ->. reflexivity. Qed.

(** Unfolds the monad, so that a computation applied to a world reduces. *)
Ltac run := unfold bind, deref, ret, panic; cbn.

(** *** The loop of [Decide] *)

Lemma Decide_range_Pass d ds ctx h decisions data w w1 :
  d ctx h data w = (w1, Ok Pass) ->
  Decide_range (d :: ds) ctx h decisions data w
  = Decide_range ds ctx h decisions data w1.
Proof. intros Hd. cbn. by rewrite (bind_Ok _ _ _ _ _ Hd). Qed.

Lemma Decide_range_Continue d ds ctx h decisions data w w1 data1 decisions1 :
  d ctx h data w = (w1, Ok (Some (ContinueOutcome data1 decisions1))) ->
  Decide_range (d :: ds) ctx h decisions data w
  = Decide_range ds ctx h (decisions ++ decisions1) data1 w1.
Proof. intros Hd. cbn. by rewrite (bind_Ok _ _ _ _ _ Hd). Qed.

(** A prefix of rules that all pass or continue is folded into the
    accumulated decisions and the threaded data. *)
Lemma Decide_range_app pre post ctx h decisions data w os data' w' :
  fold_through pre ctx h data w = Some (os, data', w') ->
  Decide_range (pre ++ post) ctx h decisions data w
  = Decide_range post ctx h (decisions ++ concat (contributed <$> os)) data' w'.
Proof.
  revert decisions data w os.
  induction pre as [|d pre IH]; intros decisions data w os Hf.
  - cbn in Hf. injection Hf as <- <- <-. cbn. by rewrite app_nil_r.
  - cbn [fold_through] in Hf.
    destruct (d ctx h data w) as [w1 [[[|data1 decisions1| |]|]|]] eqn:Hd;
      try discriminate.
    + destruct (fold_through pre ctx h data w1) as [[[os1 data2] w2]|] eqn:Hp;
        [|discriminate].
      injection Hf as <- <- <-.
      rewrite <- app_comm_cons, (Decide_range_Pass _ _ _ _ _ _ _ _ Hd).
      by rewrite (IH _ _ _ _ Hp).
    + destruct (fold_through pre ctx h data1 w1) as [[[os1 data2] w2]|] eqn:Hp;
        [|discriminate].
      injection Hf as <- <- <-.
      rewrite <- app_comm_cons, (Decide_range_Continue _ _ _ _ _ _ _ _ _ _ Hd).
      rewrite (IH _ _ _ _ Hp). cbn. by rewrite app_assoc.
Qed.

Lemma Decide_unfold c ctx h data :
  Decide c ctx h data = Decide_range (deciders c) ctx h [] data.
Proof. reflexivity. Qed.

(** What the loop does with the first rule that neither passes nor
    continues. *)
Lemma Decide_range_Transition d ds ctx h decisions data w w1 data1 state1
    decisions1 :
  d ctx h data w = (w1, Ok (Some (TransitionOutcome data1 state1 decisions1))) ->
  Decide_range (d :: ds) ctx h decisions data w
  = (w1, Ok (Some (TransitionOutcome data1 state1 (decisions ++ decisions1)))).
Proof. intros Hd. cbn. by rewrite (bind_Ok _ _ _ _ _ Hd). Qed.

Lemma Decide_range_Complete d ds ctx h decisions data w w1 data1 decisions1 :
  d ctx h data w = (w1, Ok (Some (CompleteOutcome data1 decisions1))) ->
  Decide_range (d :: ds) ctx h decisions data w
  = (w1, Ok (Some (TransitionOutcome data1 CompleteState
                     (decisions ++ decisions1)))).
Proof. intros Hd. cbn. by rewrite (bind_Ok _ _ _ _ _ Hd). Qed.

Lemma Decide_range_nil_outcome d ds ctx h decisions data w w1 :
  d ctx h data w = (w1, Ok None) ->
  Decide_range (d :: ds) ctx h decisions data w = (w1, Panic NilDereference).
Proof. intros Hd. cbn. by rewrite (bind_Ok _ _ _ _ _ Hd). Qed.

Lemma concat_contributed_snoc (os : list (OutcomeValue Data)) o :
  concat (contributed <$> os ++ [o]) = concat (contributed <$> os) ++ contributed o.
Proof. by rewrite fmap_app, concat_app; cbn; rewrite app_nil_r. Qed.

(** C1, in the form that holds: when the rules before rule [d] all pass or
    continue and [d] returns Transition, [Decide] returns at once a Transition
    outcome with that rule's data and target state; when [d] returns Complete,
    [Decide] returns at once a Transition outcome as well, to the state that
    the Complete outcome reports.  Either outcome carries the decisions
    accumulated so far followed by the rule's own, the world is the one rule
    [d] left, and the rules after [d] play no part. *)
Theorem Decide_ends_with_Transition c pre d post ctx h data w os data' w' :
  deciders c = pre ++ d :: post ->
  fold_through pre ctx h data w = Some (os, data', w') ->
  (forall w'' dat st dec,
      d ctx h data' w' = (w'', Ok (Some (TransitionOutcome dat st dec))) ->
      Decide c ctx h data w
      = (w'', Ok (Some (TransitionOutcome dat st
                          (concat (contributed <$> os) ++ dec)))))
  /\ (forall w'' dat dec,
      d ctx h data' w' = (w'', Ok (Some (CompleteOutcome dat dec))) ->
      Decide c ctx h data w
      = (w'', Ok (Some (TransitionOutcome dat CompleteState
                          (concat (contributed <$> os) ++ dec))))).
Proof.
  intros Hc Hpre.
  rewrite Decide_unfold, Hc, (Decide_range_app _ _ _ _ _ _ _ _ _ _ Hpre).
  split.
  - intros w'' dat st dec Hd.
    by rewrite (Decide_range_Transition _ _ _ _ _ _ _ _ _ _ _ Hd).
  - intros w'' dat dec Hd.
    by rewrite (Decide_range_Complete _ _ _ _ _ _ _ _ _ _ Hd).
Qed.

(** C2: when rule [d] is the first rule to return Transition or Complete
    (the rules [pre] before it all pass or continue, returning the outcomes
    [os]), the outcome of [Decide] carries the concatenation, in order, of
    the decisions contributed by the rules up to and including [d]; the
    world is the one rule [d] left, and the result is the one of the
    composition cut after [d]: no rule of [post] is invoked. *)
Theorem composition_short_circuit c pre d post ctx h data w os data' w' w'' o :
  deciders c = pre ++ d :: post ->
  fold_through pre ctx h data w = Some (os, data', w') ->
  d ctx h data' w' = (w'', Ok (Some o)) ->
  isTransitionOutcome (Some o) || isCompleteOutcome (Some o) = true ->
  (exists dat st,
      Decide c ctx h data w
      = (w'', Ok (Some (TransitionOutcome dat st
                          (concat (contributed <$> os ++ [o]))))))
  /\ Decide c ctx h data w
     = Decide {| deciders := pre ++ [d]; last := last c |} ctx h data w.
Proof.
  intros Hc Hpre Hd Ho.
  rewrite !Decide_unfold, Hc; cbn [deciders].
  rewrite !(Decide_range_app _ _ _ _ _ _ _ _ _ _ Hpre), concat_contributed_snoc.
  destruct o as [|dat dec|dat st dec|dat dec]; try discriminate.
  - rewrite !(Decide_range_Transition _ _ _ _ _ _ _ _ _ _ _ Hd). eauto.
  - rewrite !(Decide_range_Complete _ _ _ _ _ _ _ _ _ _ Hd). eauto.
Qed.

(** C5: when every rule of a composed decider returns Pass on the given
    context, event and data, [Decide] returns a Continue outcome with no
    decisions and the input data. *)
Theorem fallthrough_default c ctx h data :
  (forall d, d ∈ deciders c -> forall w, exists w', d ctx h data w = (w', Ok Pass)) ->
  forall w, exists w',
    Decide c ctx h data w = (w', Ok (Some (ContinueOutcome data []))).
Proof.
  rewrite Decide_unfold. generalize (@nil swf.Decision) as decisions.
  induction (deciders c) as [|d ds IH]; intros decisions Hall w.
  - by exists w.
  - destruct (Hall d (list_elem_of_here _ _) w) as [w1 Hd].
    rewrite (Decide_range_Pass _ _ _ _ _ _ _ _ Hd).
    apply IH. intros d' Hin. apply Hall. by apply list_elem_of_further.
Qed.

Lemma Decide_range_fill_strip (p : Decider) slots ctx h :
  (forall data w, p ctx h data w = (w, Ok Pass)) ->
  forall decisions data w,
    Decide_range (fill p slots) ctx h decisions data w
    = Decide_range (strip slots) ctx h decisions data w.
Proof.
  intros Hp. induction slots as [|[d|] slots IH]; intros decisions data w.
  - reflexivity.
  - cbn. unfold bind.
    destruct (d ctx h data w) as [w1 [[[|data1 decisions1| |]|]|]]; try done;
      apply IH.
  - change (fill p (None :: slots)) with (p :: fill p slots).
    rewrite (Decide_range_Pass _ _ _ _ _ _ _ _ (Hp data w)). apply IH.
Qed.

Lemma fill_markAt positions (p : Decider) ds : forall i,
  fill p (markAt positions i ds) = replaceAt positions p i ds.
Proof.
  induction ds as [|d ds IH]; intros i; [reflexivity|].
  cbn. rewrite <- IH. unfold fill. by case_bool_decide.
Qed.

Lemma strip_markAt positions ds : forall i,
  strip (markAt positions i ds) = removeAt positions i ds.
Proof.
  induction ds as [|d ds IH]; intros i; [reflexivity|].
  cbn. rewrite <- IH. unfold strip. by case_bool_decide.
Qed.

(** C6: let [p] be a rule that always returns Pass and does nothing else.
    For every composed decider [c] and every set of its rule positions, the
    composition with [p] in place of the rules at those positions gives, on
    every data and world, the result of the composition without these rules;
    and a composition with [p] put in at any positions of [c]'s rule list
    gives the result of [c]: same decisions, data and state. *)
Theorem pass_transparency (p : Decider) c ctx h :
  (forall data w, p ctx h data w = (w, Ok Pass)) ->
  (forall positions c' c'',
      deciders c' = replaceAt positions p 0 (deciders c) ->
      deciders c'' = removeAt positions 0 (deciders c) ->
      forall data w, Decide c' ctx h data w = Decide c'' ctx h data w)
  /\ (forall slots c',
      strip slots = deciders c ->
      deciders c' = fill p slots ->
      forall data w, Decide c' ctx h data w = Decide c ctx h data w).
Proof.
  intros Hp. split.
  - intros positions c' c'' Hc' Hc'' data w.
    rewrite !Decide_unfold, Hc', Hc'', <- fill_markAt, <- strip_markAt.
    by apply Decide_range_fill_strip.
  - intros slots c' Hc Hc' data w.
    rewrite !Decide_unfold, Hc', <- Hc.
    by apply Decide_range_fill_strip.
Qed.

(** *** Managed continuations *)

Lemma registry_empty_test ctx :
  Nat.eqb (size (ActivitiesInfo ctx)) 0 = bool_decide (ActivitiesInfo ctx = ∅).
Proof.
  case_bool_decide as He.
  - rewrite He. reflexivity.
  - apply Nat.eqb_neq. by rewrite map_size_empty_iff.
Qed.

Ltac registry :=
  rewrite registry_empty_test; case_decide;
  [rewrite bool_decide_eq_true_2 by done
  |rewrite bool_decide_eq_false_2 by done];
  done.

(** The decision of a matched continuation rule, field by field. *)
Lemma continuationDecision_fields timerRetrySeconds ctx :
  continuationDecision timerRetrySeconds ctx
  = if decide (ActivitiesInfo ctx = ∅) then
      {| swf.DecisionType := Some "ContinueAsNewWorkflowExecution";
         swf.StartTimerDecisionAttributes_ := None;
         swf.SignalExternalWorkflowExecutionDecisionAttributes_ := None;
         swf.ContinueAsNewWorkflowExecutionDecisionAttributes_ :=
           Some {| swf.ca_Input := Some (State ctx) |} |}
    else
      {| swf.DecisionType := Some "StartTimer";
         swf.StartTimerDecisionAttributes_ :=
           Some {| swf.st_StartToFireTimeout :=
                     Some (NilZero.string_of_int (Z.to_int timerRetrySeconds));
                   swf.st_TimerID := Some ContinueTimer |};
         swf.SignalExternalWorkflowExecutionDecisionAttributes_ := None;
         swf.ContinueAsNewWorkflowExecutionDecisionAttributes_ := None |}.
Proof. reflexivity. Qed.

(** The self-signal of the history-size rule, field by field. *)
Lemma signalContinueDecision_fields ctx :
  signalContinueDecision ctx
  = {| swf.DecisionType := Some "SignalExternalWorkflowExecution";
       swf.StartTimerDecisionAttributes_ := None;
       swf.SignalExternalWorkflowExecutionDecisionAttributes_ :=
         Some {| swf.se_SignalName := Some ContinueSignal;
                 swf.se_WorkflowID := WorkflowID ctx;
                 swf.se_RunID := RunID ctx |};
       swf.ContinueAsNewWorkflowExecutionDecisionAttributes_ := None |}.
Proof. reflexivity. Qed.

Lemma handleContinuationTimer_fired timerRetrySeconds ctx h attrs data w :
  swf.EventType h = Some swf.EventTypeTimerFired ->
  swf.TimerFiredEventAttributes_ h = Some attrs ->
  swf.tf_TimerID attrs = Some ContinueTimer ->
  handleContinuationTimer timerRetrySeconds ctx h data w
  = (w, Ok (FSMContext_Stay ctx data
              [continuationDecision timerRetrySeconds ctx])).
Proof.
  intros Ht Ha Hid. unfold handleContinuationTimer, continuationDecision.
  run. rewrite Ht. cbn. rewrite Ha, Hid, String.eqb_refl.
  registry.
Qed.

Lemma signalContinuationWhenHistoryLarge_eq historySize ctx h N data w :
  swf.EventID h = Some N ->
  signalContinuationWhenHistoryLarge historySize ctx h data w
  = (w, Ok (if Z.ltb historySize N
            then FSMContext_Stay ctx data [signalContinueDecision ctx]
            else Pass)).
Proof.
  intros HN. unfold signalContinuationWhenHistoryLarge. run. rewrite HN.
  by destruct (Z.ltb historySize N).
Qed.

(** On a well-formed event each continuation rule stays with its one
    decision when the event is the reserved one and passes otherwise, and
    leaves the world alone. *)
Lemma handleContinuationTimer_wellFormed timerRetrySeconds ctx h data w :
  wellFormed h = true ->
  handleContinuationTimer timerRetrySeconds ctx h data w
  = (w, Ok (if isContinueTimerFired h
            then FSMContext_Stay ctx data
                   [continuationDecision timerRetrySeconds ctx]
            else Pass)).
Proof.
  unfold wellFormed, handleContinuationTimer, continuationDecision,
    isContinueTimerFired.
  run.
  destruct (swf.EventType h) as [eventType|]; [|done].
  destruct (swf.EventID h); [|done]. cbn.
  destruct (String.eqb eventType swf.EventTypeTimerFired); cbn.
  - destruct (swf.TimerFiredEventAttributes_ h) as [attrs|]; [|done]. cbn.
    destruct (swf.tf_TimerID attrs) as [timerID|]; [|done]. cbn.
    destruct (String.eqb timerID ContinueTimer); cbn; [|done].
    intros _. registry.
  - by destruct (swf.TimerFiredEventAttributes_ h).
Qed.

Lemma handleContinuationSignal_wellFormed timerRetrySeconds ctx h data w :
  wellFormed h = true ->
  handleContinuationSignal timerRetrySeconds ctx h data w
  = (w, Ok (if isContinueSignaled h
            then FSMContext_Stay ctx data
                   [continuationDecision timerRetrySeconds ctx]
            else Pass)).
Proof.
  unfold wellFormed, handleContinuationSignal, continuationDecision,
    isContinueSignaled.
  run.
  destruct (swf.EventType h) as [eventType|]; [|done].
  destruct (swf.EventID h); [|done].
  rewrite andb_true_iff. intros [_ Hs]. revert Hs.
  destruct (String.eqb eventType swf.EventTypeWorkflowExecutionSignaled); cbn.
  - destruct (swf.WorkflowExecutionSignaledEventAttributes_ h) as [attrs|];
      [|done].
    cbn. destruct (swf.ws_SignalName attrs) as [name|]; [|done]. cbn.
    destruct (String.eqb name ContinueSignal); cbn; [|done].
    intros _. registry.
  - by destruct (swf.WorkflowExecutionSignaledEventAttributes_ h).
Qed.

Lemma ManagedContinuations_unfold historySize timerRetrySeconds ctx h data :
  ManagedContinuations historySize timerRetrySeconds ctx h data
  = Decide_range
      [ handleContinuationTimer timerRetrySeconds;
        handleContinuationSignal timerRetrySeconds;
        signalContinuationWhenHistoryLarge historySize ] ctx h [] data.
Proof. reflexivity. Qed.

(** What the three rules give together on a well-formed event: the pass ends
    at the first rule that stays, with that rule's one decision. *)
Lemma ManagedContinuations_wellFormed historySize timerRetrySeconds ctx h N data
    w :
  wellFormed h = true ->
  swf.EventID h = Some N ->
  ManagedContinuations historySize timerRetrySeconds ctx h data w
  = (w, Ok (if isContinueTimerFired h || isContinueSignaled h then
              Some (TransitionOutcome data (StayState ctx)
                      [continuationDecision timerRetrySeconds ctx])
            else if Z.ltb historySize N then
              Some (TransitionOutcome data (StayState ctx)
                      [signalContinueDecision ctx])
            else Some (ContinueOutcome data []))).
Proof.
  intros Hwf HN.
  pose proof (handleContinuationTimer_wellFormed timerRetrySeconds ctx h data w
                Hwf) as H1.
  pose proof (handleContinuationSignal_wellFormed timerRetrySeconds ctx h data w
                Hwf) as H2.
  pose proof (signalContinuationWhenHistoryLarge_eq historySize ctx h N data w HN)
    as H3.
  rewrite ManagedContinuations_unfold.
  destruct (isContinueTimerFired h); cbn [orb].
  { by rewrite (Decide_range_Transition _ _ _ _ _ _ _ _ _ _ _ H1). }
  rewrite (Decide_range_Pass _ _ _ _ _ _ _ _ H1).
  destruct (isContinueSignaled h).
  { by rewrite (Decide_range_Transition _ _ _ _ _ _ _ _ _ _ _ H2). }
  rewrite (Decide_range_Pass _ _ _ _ _ _ _ _ H2).
  destruct (Z.ltb historySize N).
  - by rewrite (Decide_range_Transition _ _ _ _ _ _ _ _ _ _ _ H3).
  - by rewrite (Decide_range_Pass _ _ _ _ _ _ _ _ H3).
Qed.



(** *** Event-matching combinators *)

(** C9: on an external-workflow-execution-signaled event the decider built
    by [OnSignalSent] logs and hands over to its nested composed decider,
    and so does the one built by [OnSignalFailed] on a
    signal-external-workflow-execution-failed event, whatever the signal
    name they were built with and whatever the event refers to; the two
    builders give the same decider for any two signal names. *)
Theorem signal_name_never_consulted ds ctx h data w :
  (swf.EventType h = Some swf.EventTypeExternalWorkflowExecutionSignaled ->
   forall signalName,
     OnSignalSent signalName ds ctx h data w
     = (logf ctx "at=on-signal-sent" ;;; NewComposedDecider ds ctx h data) w)
  /\ (swf.EventType h = Some swf.EventTypeSignalExternalWorkflowExecutionFailed ->
      forall signalName,
        OnSignalFailed signalName ds ctx h data w
        = (logf ctx "at=on-signal-failed" ;;; NewComposedDecider ds ctx h data) w)
  /\ (forall signalName signalName',
        OnSignalSent signalName ds = OnSignalSent signalName' ds
        /\ OnSignalFailed signalName ds = OnSignalFailed signalName' ds).
Proof.
  split; [|split].
  - intros Ht signalName. unfold OnSignalSent.
    rewrite (bind_Ok _ _ w w swf.EventTypeExternalWorkflowExecutionSignaled)
      by (by rewrite Ht).
    reflexivity.
  - intros Ht signalName. unfold OnSignalFailed.
    rewrite (bind_Ok _ _ w w swf.EventTypeSignalExternalWorkflowExecutionFailed)
      by (by rewrite Ht).
    reflexivity.
  - intros signalName signalName'. split; reflexivity.
Qed.

(** *** Typed building blocks *)

Lemma typeCheck_in_spec (t : reflect.rtype) in_ : forall i w,
  i + length in_ = reflect.NumIn t ->
  (reflect.String_ <$> drop i (reflect.ins t) = in_ ->
   typeCheck_in t i in_ w = (w, Ok tt))
  /\ (reflect.String_ <$> drop i (reflect.ins t) <> in_ ->
      exists p, typeCheck_in t i in_ w = (w, Panic p)).
Proof.
  unfold reflect.NumIn.
  induction in_ as [|rt rest IH]; intros i w Hlen; cbn [length] in Hlen.
  - rewrite drop_ge by lia. split; [done|]. by intros [].
  - destruct (lookup_lt_is_Some_2 (reflect.ins t) i) as [ti Hti]; [lia|].
    rewrite (drop_S _ _ _ Hti). cbn [typeCheck_in fmap list_fmap].
    unfold reflect.In. rewrite Hti. run.
    destruct (IH (S i) w ltac:(lia)) as [IHok IHbad].
    destruct (String.eqb_spec rt (reflect.String_ ti)) as [->|Hne]; cbn.
    + split.
      * intros [= Hrest]. by apply IHok.
      * intros Hrest. apply IHbad. intros Heq. apply Hrest. by rewrite Heq.
    + split; [intros [= Heq _]; congruence | eauto].
Qed.

Lemma typeCheck_out_spec (t : reflect.rtype) out : forall i w,
  i + length out = reflect.NumOut t ->
  (reflect.String_ <$> drop i (reflect.outs t) = out ->
   typeCheck_out t i out w = (w, Ok tt))
  /\ (reflect.String_ <$> drop i (reflect.outs t) <> out ->
      exists p, typeCheck_out t i out w = (w, Panic p)).
Proof.
  unfold reflect.NumOut.
  induction out as [|rt rest IH]; intros i w Hlen; cbn [length] in Hlen.
  - rewrite drop_ge by lia. split; [done|]. by intros [].
  - destruct (lookup_lt_is_Some_2 (reflect.outs t) i) as [ti Hti]; [lia|].
    rewrite (drop_S _ _ _ Hti). cbn [typeCheck_out fmap list_fmap].
    unfold reflect.Out. rewrite Hti. run.
    destruct (IH (S i) w ltac:(lia)) as [IHok IHbad].
    destruct (String.eqb_spec rt (reflect.String_ ti)) as [->|Hne]; cbn.
    + split.
      * intros [= Hrest]. by apply IHok.
      * intros Hrest. apply IHbad. intros Heq. apply Hrest. by rewrite Heq.
    + split; [intros [= Heq _]; congruence | eauto].
Qed.

(** [typeCheck] returns exactly on the callbacks whose signature matches,
    and panics on every other one, without touching the world. *)
Lemma typeCheck_spec (typedFunc : option Value) in_ out w :
  constructs (typeCheck typedFunc in_ out) w
    (signatureMatches typedFunc in_ out) tt.
Proof.
  unfold constructs, typeCheck, signatureMatches.
  destruct typedFunc as [f|]; [|by eexists].
  rewrite (bind_Ok _ _ w w (TypeOf f)) by reflexivity.
  generalize (TypeOf f) as t. clear f. intros t.
  destruct (reflect.Kind_eqb reflect.Func (reflect.Kind_ t));
    cbn [negb andb]; [|by eexists].
  destruct (Nat.eqb_spec (length in_) (reflect.NumIn t)) as [Hin|Hin];
    cbn [negb].
  2:{ rewrite bool_decide_eq_false_2; [by eexists|].
      intros <-. apply Hin. unfold reflect.NumIn. by rewrite length_fmap. }
  destruct (typeCheck_in_spec t in_ 0 w ltac:(lia)) as [Hok Hbad].
  rewrite drop_0 in Hok, Hbad.
  case_bool_decide as Hi; cbn [andb].
  2:{ destruct (Hbad Hi) as [p Hp]. exists p. by rewrite (bind_Panic _ _ _ _ _ Hp). }
  rewrite (bind_Ok _ _ _ _ _ (Hok Hi)).
  destruct (Nat.eqb_spec (length out) (reflect.NumOut t)) as [Hout|Hout];
    cbn [negb].
  2:{ rewrite bool_decide_eq_false_2; [by eexists|].
      intros <-. apply Hout. unfold reflect.NumOut. by rewrite length_fmap. }
  destruct (typeCheck_out_spec t out 0 w ltac:(lia)) as [Hok' Hbad'].
  rewrite drop_0 in Hok', Hbad'.
  case_bool_decide as Ho; [by apply Hok' | by apply Hbad'].
Qed.

Lemma constructs_then {A} (m : M World unit) w expected (a : A) :
  constructs m w expected tt -> constructs (m ;;; ret a) w expected a.
Proof.
  unfold constructs. destruct expected.
  - intros Hm. by rewrite (bind_Ok _ _ _ _ _ Hm).
  - intros [p Hm]. exists p. by rewrite (bind_Panic _ _ _ _ _ Hm).
Qed.


End DeciderFacts.

Section DispatcherFacts.

Context {World : Type}.

(** C8: for every task and handler, [DispatchTask] of the inline dispatcher
    is one run of [handler task], to its end, in the caller's world: what
    [DispatchTask] returns and the world it leaves are the handler's, and a
    handler that records its invocations has recorded exactly one more, for
    that task, when [DispatchTask] returns. *)
Theorem inline_dispatch_synchronous (task : swf.DecisionTask)
    (handler : @Handler World) (w : World) (calls : list swf.DecisionTask) :
  CallingGoroutineDispatcher_DispatchTask task handler w = handler task w
  /\ CallingGoroutineDispatcher_DispatchTask task (recording handler) (w, calls)
     = ((fst (handler task w), calls ++ [task]), snd (handler task w)).
Proof.
  split; [reflexivity|].
  unfold CallingGoroutineDispatcher_DispatchTask, recording.
  by destruct (handler task w).
Qed.

End DispatcherFacts.

(** With the inline dispatcher the dispatcher test finds [done] ready: all
    thousand handlers ran before the loop was over. *)
Lemma testDispatcher_inline :
  testDispatcher CallingGoroutineDispatcher_DispatchTask
  = ({| tasksHandled := 1000; done := [tt] |}, Ok true).
Proof. vm_compute. reflexivity. Qed.

(** * Further properties of the composition *)

Section CompositionFacts.

Context {Data World : Type}.
Variable CompleteState : string.

Local Abbreviation Decider := (@Decider Data World).
Local Abbreviation Decide := (@Decide Data World CompleteState).
Local Abbreviation Decide_range := (@Decide_range Data World CompleteState).
Local Abbreviation NewComposedDecider :=
  (@NewComposedDecider Data World CompleteState).
Local Abbreviation Run := (@Run Data World CompleteState).

Implicit Types (ds pre post inner : list Decider) (d : Decider).
Implicit Types (c : @ComposedDecider Data World).
Implicit Types (ctx : FSMContext) (h : swf.HistoryEvent) (data : Data).
Implicit Types (w : World) (decisions : list swf.Decision).

Lemma Decide_range_Panic d ds ctx h decisions data w w1 p :
  d ctx h data w = (w1, Panic p) ->
  Decide_range (d :: ds) ctx h decisions data w = (w1, Panic p).
Proof. intros Hd. cbn. by rewrite (bind_Panic _ _ _ _ _ Hd). Qed.

Lemma fold_through_Pass d ds ctx h data w w1 :
  d ctx h data w = (w1, Ok Pass) ->
  fold_through (d :: ds) ctx h data w
  = (fun '(os, data', w') => (PassOutcome :: os, data', w'))
      <$> fold_through ds ctx h data w1.
Proof.
  intros Hd. cbn [fold_through]. rewrite Hd.
  by destruct (fold_through ds ctx h data w1) as [[[??]?]|].
Qed.

Lemma fold_through_Continue d ds ctx h data w w1 data1 decisions1 :
  d ctx h data w = (w1, Ok (Some (ContinueOutcome data1 decisions1))) ->
  fold_through (d :: ds) ctx h data w
  = (fun '(os, data', w') => (ContinueOutcome data1 decisions1 :: os, data', w'))
      <$> fold_through ds ctx h data1 w1.
Proof.
  intros Hd. cbn [fold_through]. rewrite Hd.
  by destruct (fold_through ds ctx h data1 w1) as [[[??]?]|].
Qed.

Lemma Run_cons_through d ds ctx h data w w1 o data1 :
  fold_through [d] ctx h data w = Some ([o], data1, w1) ->
  Run ctx h ds data1 w1 -> Run ctx h (d :: ds) data w.
Proof.
  intros Hd Hrun.
  assert (forall pre os data2 w2,
            fold_through pre ctx h data1 w1 = Some (os, data2, w2) ->
            fold_through (d :: pre) ctx h data w = Some (o :: os, data2, w2))
    as Hcons.
  { intros pre os data2 w2 Hpre. cbn [fold_through] in Hd |- *.
    destruct (d ctx h data w) as [w0 [[[|data0 decisions0| |]|]|]];
      try discriminate; injection Hd as <- <- <-; by rewrite Hpre. }
  destruct Hrun as [os data' w' Hf|pre d' post os data2 w2 w' o' dat st -> Hf Hd' He Hr
                   |pre d' post os data2 w2 p -> Hf Hp Hr].
  - eapply Run_through. by apply Hcons.
  - eapply Run_ends with (pre := d :: pre); [reflexivity|by apply Hcons|..]; eauto.
  - eapply Run_panics with (pre := d :: pre); [reflexivity|by apply Hcons|..]; eauto.
Qed.

Lemma Run_total ds ctx h : forall data w, Run ctx h ds data w.
Proof.
  induction ds as [|d ds IH]; intros data w.
  - by eapply Run_through.
  - destruct (d ctx h data w) as [w1 [[[|data1 decisions1|data1 st decisions1
                                       |data1 decisions1]|]|p]] eqn:Hd.
    + eapply Run_cons_through; [|apply IH]. cbn. by rewrite Hd.
    + eapply Run_cons_through; [|apply IH]. cbn. by rewrite Hd.
    + eapply Run_ends with (pre := []) (d := d) (post := ds);
        [reflexivity|reflexivity|exact Hd|done|].
      intros decisions post'.
      by rewrite (Decide_range_Transition _ _ _ _ _ _ _ _ _ _ _ _ Hd).
    + eapply Run_ends with (pre := []) (d := d) (post := ds);
        [reflexivity|reflexivity|exact Hd|done|].
      intros decisions post'.
      by rewrite (Decide_range_Complete _ _ _ _ _ _ _ _ _ _ _ Hd).
    + eapply Run_panics with (pre := []) (d := d) (post := ds);
        [reflexivity|reflexivity|..]; cbn [fold_through]; rewrite Hd; [done|].
      intros decisions post'.
      by rewrite (Decide_range_nil_outcome _ _ _ _ _ _ _ _ _ Hd).
    + eapply Run_panics with (pre := []) (d := d) (post := ds);
        [reflexivity|reflexivity|..]; cbn [fold_through]; rewrite Hd; [done|].
      intros decisions post'.
      by rewrite (Decide_range_Panic _ _ _ _ _ _ _ _ _ Hd).
Qed.

Lemma Decide_range_through ds ctx h decisions data w os data' w' :
  fold_through ds ctx h data w = Some (os, data', w') ->
  Decide_range ds ctx h decisions data w
  = (w', Ok (Some (ContinueOutcome data'
                     (decisions ++ concat (contributed <$> os))))).
Proof.
  intros Hf.
  by rewrite <- (app_nil_r ds), (Decide_range_app _ _ _ _ _ _ _ _ _ _ _ Hf).
Qed.

(** A composed decider at the head of a rule list is its rules put there. *)
Lemma Decide_range_nested inner post ctx h decisions data w :
  Decide_range (NewComposedDecider inner :: post) ctx h decisions data w
  = Decide_range (inner ++ post) ctx h decisions data w.
Proof.
  destruct (Run_total inner ctx h data w)
    as [os data' w' Hf|pre d post' os data1 w1 w' o dat st -> Hf Hd He Hr
       |pre d post' os data1 w1 p -> Hf Hp Hr].
  - rewrite (Decide_range_app _ _ _ _ _ _ _ _ _ _ _ Hf).
    apply Decide_range_Continue.
    unfold NewComposedDecider. rewrite Decide_unfold. cbn [deciders].
    by rewrite (Decide_range_through _ _ _ _ _ _ _ _ _ Hf).
  - rewrite <- app_assoc, <- app_comm_cons.
    rewrite (Decide_range_app _ _ _ _ _ _ _ _ _ _ _ Hf), Hr, <- app_assoc.
    apply Decide_range_Transition.
    unfold NewComposedDecider. rewrite Decide_unfold. cbn [deciders].
    by rewrite (Decide_range_app _ _ _ _ _ _ _ _ _ _ _ Hf), Hr.
  - rewrite <- app_assoc, <- app_comm_cons.
    rewrite (Decide_range_app _ _ _ _ _ _ _ _ _ _ _ Hf), Hr.
    apply Decide_range_Panic.
    unfold NewComposedDecider. rewrite Decide_unfold. cbn [deciders].
    by rewrite (Decide_range_app _ _ _ _ _ _ _ _ _ _ _ Hf), Hr.
Qed.

(** The loop looks at its first rule only through what the rule returns. *)
Lemma Decide_range_head d d' ds ctx h decisions data w w' :
  d ctx h data w = d' ctx h data w' ->
  Decide_range (d :: ds) ctx h decisions data w
  = Decide_range (d' :: ds) ctx h decisions data w'.
Proof. intros Hd. cbn. unfold bind. by rewrite Hd. Qed.

(** X1: a composed decider used as a rule of another composed decider
    behaves as its own rules put in its place: nesting is flattening,
    whatever comes before and after. *)
Theorem Decide_flattens pre inner post l l' ctx h data w :
  Decide {| deciders := pre ++ NewComposedDecider inner :: post; last := l |}
    ctx h data w
  = Decide {| deciders := pre ++ inner ++ post; last := l' |} ctx h data w.
Proof.
  rewrite !Decide_unfold. cbn [deciders].
  generalize (@nil swf.Decision) as decisions. intros decisions.
  destruct (Run_total pre ctx h data w)
    as [os data' w' Hf|pre' d post' os data1 w1 w' o dat st -> Hf Hd He Hr
       |pre' d post' os data1 w1 p -> Hf Hp Hr].
  - rewrite !(Decide_range_app _ _ _ _ _ _ _ _ _ _ _ Hf).
    apply Decide_range_nested.
  - rewrite <- !app_assoc, <- !app_comm_cons.
    by rewrite !(Decide_range_app _ _ _ _ _ _ _ _ _ _ _ Hf), !Hr.
  - rewrite <- !app_assoc, <- !app_comm_cons.
    by rewrite !(Decide_range_app _ _ _ _ _ _ _ _ _ _ _ Hf), !Hr.
Qed.

(** X2: whatever its rules do, a composed decider that returns gives a
    Continue or a Transition outcome: never the nil outcome, never Pass and
    never Complete. *)
Theorem Decide_outcome_shape c ctx h data w w' o :
  Decide c ctx h data w = (w', Ok o) ->
  o <> None /\ o <> Pass /\ isCompleteOutcome o = false.
Proof.
  rewrite Decide_unfold.
  destruct (Run_total (deciders c) ctx h data w)
    as [os data' w'' Hf|pre d post os data1 w1 w'' o' dat st -> Hf Hd He Hr
       |pre d post os data1 w1 p -> Hf Hp Hr].
  - rewrite (Decide_range_through _ _ _ _ _ _ _ _ _ Hf). by intros [= _ <-].
  - rewrite (Decide_range_app _ _ _ _ _ _ _ _ _ _ _ Hf), Hr. by intros [= _ <-].
  - rewrite (Decide_range_app _ _ _ _ _ _ _ _ _ _ _ Hf), Hr. discriminate.
Qed.

(** X3: a composed decider returns a Continue outcome exactly when every
    one of its rules passes or continues; the outcome then carries the data
    of the last rule that continued and the decisions of all of them in
    order. *)
Theorem Decide_Continue_iff c ctx h data w w' data' decisions :
  Decide c ctx h data w = (w', Ok (Some (ContinueOutcome data' decisions)))
  <-> exists os,
        fold_through (deciders c) ctx h data w = Some (os, data', w')
        /\ decisions = concat (contributed <$> os).
Proof.
  rewrite Decide_unfold. split.
  - destruct (Run_total (deciders c) ctx h data w)
      as [os data'' w'' Hf|pre d post os data1 w1 w'' o' dat st -> Hf Hd He Hr
         |pre d post os data1 w1 p -> Hf Hp Hr].
    + rewrite (Decide_range_through _ _ _ _ _ _ _ _ _ Hf).
      intros [= <- <- <-]. eauto.
    + rewrite (Decide_range_app _ _ _ _ _ _ _ _ _ _ _ Hf), Hr. discriminate.
    + rewrite (Decide_range_app _ _ _ _ _ _ _ _ _ _ _ Hf), Hr. discriminate.
  - intros (os & Hf & ->). by rewrite (Decide_range_through _ _ _ _ _ _ _ _ _ Hf).
Qed.

(** X4: a composed decider that returns a Transition outcome got it from
    one of its rules: the rules before that one all passed or continued, the
    rule returned Transition or Complete, and the outcome's decisions are
    theirs in order. *)
Theorem Decide_Transition_inv c ctx h data w w' dat st decisions :
  Decide c ctx h data w = (w', Ok (Some (TransitionOutcome dat st decisions))) ->
  exists pre d post os data1 w1 o,
    deciders c = pre ++ d :: post
    /\ fold_through pre ctx h data w = Some (os, data1, w1)
    /\ d ctx h data1 w1 = (w', Ok (Some o))
    /\ ends o = true
    /\ decisions = concat (contributed <$> os ++ [o]).
Proof.
  rewrite Decide_unfold.
  destruct (Run_total (deciders c) ctx h data w)
    as [os data'' w'' Hf|pre d post os data1 w1 w'' o' dat' st' Hc Hf Hd He Hr
       |pre d post os data1 w1 p -> Hf Hp Hr].
  - rewrite (Decide_range_through _ _ _ _ _ _ _ _ _ Hf). discriminate.
  - rewrite Hc, (Decide_range_app _ _ _ _ _ _ _ _ _ _ _ Hf), Hr.
    intros [= <- <- <- <-]. exists pre, d, post, os, data1, w1, o'.
    by rewrite concat_contributed_snoc.
  - rewrite (Decide_range_app _ _ _ _ _ _ _ _ _ _ _ Hf), Hr. discriminate.
Qed.

(** X5: a composed decider none of whose rules returns the nil outcome on
    the event panics exactly when a rule it reaches, through rules that pass
    or continue, panics; it panics with that rule's panic in the world that
    rule left, and no later rule runs. *)
Theorem Decide_Panic_iff c ctx h data w w' p :
  (forall d data1 w1, d ∈ deciders c -> snd (d ctx h data1 w1) <> Ok None) ->
  Decide c ctx h data w = (w', Panic p)
  <-> exists pre d post os data1 w1,
        deciders c = pre ++ d :: post
        /\ fold_through pre ctx h data w = Some (os, data1, w1)
        /\ d ctx h data1 w1 = (w', Panic p).
Proof.
  intros Hnil. rewrite Decide_unfold. split.
  - destruct (Run_total (deciders c) ctx h data w)
      as [os data'' w'' Hf|pre d post os data1 w1 w'' o' dat' st' Hc Hf Hd He Hr
         |pre d post os data1 w1 p' Hc Hf Hp Hr].
    + rewrite (Decide_range_through _ _ _ _ _ _ _ _ _ Hf). discriminate.
    + rewrite Hc, (Decide_range_app _ _ _ _ _ _ _ _ _ _ _ Hf), Hr. discriminate.
    + rewrite Hc, (Decide_range_app _ _ _ _ _ _ _ _ _ _ _ Hf), Hr.
      intros [= <- <-]. exists pre, d, post, os, data1, w1.
      split; [done|]. split; [done|].
      assert (d ∈ deciders c) as Hin by (rewrite Hc; set_solver).
      pose proof (Hnil d data1 w1 Hin) as Hd.
      destruct (d ctx h data1 w1) as [w2 [[o|]|p'']]; cbn in Hp, Hd |- *;
        [discriminate|done|by injection Hp as <-].
  - intros (pre & d & post & os & data1 & w1 & -> & Hf & Hd).
    rewrite (Decide_range_app _ _ _ _ _ _ _ _ _ _ _ Hf).
    by apply Decide_range_Panic.
Qed.

End CompositionFacts.

(** * Further properties of the builders and combinators *)

Section BuilderFacts.

Context {Data World : Type} `{!Logger World}.
Variable CompleteState : string.
Variable StayState : FSMContext -> string.
Variable FSMContext_ActivityInfo :
  FSMContext -> swf.HistoryEvent -> M World (option swf.ActivityType).

Local Abbreviation Decider := (@Decider Data World).
Local Abbreviation Decide := (@Decide Data World CompleteState).
Local Abbreviation Decide_range := (@Decide_range Data World CompleteState).
Local Abbreviation NewComposedDecider :=
  (@NewComposedDecider Data World CompleteState).
Local Abbreviation OnStarted := (@OnStarted Data World _ CompleteState).
Local Abbreviation OnChildStarted := (@OnChildStarted Data World _ CompleteState).
Local Abbreviation OnData := (@OnData Data World _ CompleteState).
Local Abbreviation OnSignalReceived :=
  (@OnSignalReceived Data World _ CompleteState).
Local Abbreviation OnActivityCompleted :=
  (@OnActivityCompleted Data World _ CompleteState FSMContext_ActivityInfo).
Local Abbreviation OnActivityFailed :=
  (@OnActivityFailed Data World _ CompleteState FSMContext_ActivityInfo).
Local Abbreviation AddDecision := (@AddDecision Data World _).
Local Abbreviation AddDecisions := (@AddDecisions Data World _).
Local Abbreviation UpdateState := (@UpdateState Data World _).
Local Abbreviation Transition := (@Transition Data World _).
Local Abbreviation Stay := (@Stay Data World _ StayState).
Local Abbreviation OnSignalSent := (@OnSignalSent Data World _ CompleteState).
Local Abbreviation OnSignalFailed := (@OnSignalFailed Data World _ CompleteState).

Implicit Types (ds pre post inner : list Decider) (d : Decider).
Implicit Types (ctx : FSMContext) (h : swf.HistoryEvent) (data : Data).
Implicit Types (w : World) (decisions : list swf.Decision).

Lemma logf_named ctx name format w :
  WorkflowType_Name ctx = Some name ->
  logf ctx format w = (logged ctx name [format] w, Ok tt).
Proof. intros Hn. unfold logf. by rewrite Hn. Qed.

Lemma logf_unnamed ctx format w :
  WorkflowType_Name ctx = None -> logf ctx format w = (w, Panic NilDereference).
Proof. intros Hn. unfold logf. by rewrite Hn. Qed.

Lemma logged_app ctx name formats formats' w :
  logged ctx name (formats ++ formats') w
  = logged ctx name formats' (logged ctx name formats w).
Proof. unfold logged. by rewrite foldl_app. Qed.

Lemma AddDecision_pure f ctx name h data w :
  WorkflowType_Name ctx = Some name ->
  AddDecision (pureDecision f) ctx h data w
  = (logged ctx name ["at=decide"] w,
     Ok (Some (ContinueOutcome data [f ctx h data]))).
Proof.
  intros Hn. unfold AddDecision, pureDecision.
  rewrite (bind_Ok _ _ w w (f ctx h data)) by reflexivity.
  by rewrite (bind_Ok _ _ _ _ _ (logf_named _ _ _ _ Hn)).
Qed.

Lemma Decide_range_AddDecisions fs rest ctx name h :
  WorkflowType_Name ctx = Some name ->
  forall decisions data w,
    Decide_range (((fun f => AddDecision (pureDecision f)) <$> fs) ++ rest) ctx h
      decisions data w
    = Decide_range rest ctx h (decisions ++ ((fun f => f ctx h data) <$> fs)) data
        (logged ctx name (replicate (length fs) "at=decide") w).
Proof.
  intros Hn. induction fs as [|f fs IH]; intros decisions data w.
  - cbn. by rewrite app_nil_r.
  - cbn [fmap list_fmap app length replicate].
    rewrite (Decide_range_Continue _ _ _ _ _ _ _ _ _ _ _
               (AddDecision_pure f ctx name h data w Hn)).
    by rewrite IH, <- app_assoc.
Qed.

(** X6: a stack of [AddDecision] rules over decision functions without
    effects, closed by [Transition s], returns the transition to [s] with one
    decision per rule in the order of the rules, the data as it came in, and
    one log line per rule; this for a context whose workflow type has a
    name. *)
Theorem AddDecision_stack fs s l ctx name h data w :
  WorkflowType_Name ctx = Some name ->
  Decide {| deciders := ((fun f => AddDecision (pureDecision f)) <$> fs)
                        ++ [Transition s];
            last := l |} ctx h data w
  = (logged ctx name (replicate (length fs) "at=decide" ++ ["at=transition"]) w,
     Ok (Some (TransitionOutcome data s ((fun f => f ctx h data) <$> fs)))).
Proof.
  intros Hn. rewrite Decide_unfold. cbn [deciders].
  rewrite (Decide_range_AddDecisions _ _ _ _ _ Hn), logged_app.
  erewrite Decide_range_Transition; [by rewrite app_nil_r|].
  unfold Transition. by rewrite (bind_Ok _ _ _ _ _ (logf_named _ _ _ _ Hn)).
Qed.

Lemma guard_matched (g : Decider) inner post format ctx name h decisions data w w1 :
  WorkflowType_Name ctx = Some name ->
  g ctx h data w = (logf ctx format ;;; NewComposedDecider inner ctx h data) w1 ->
  Decide_range (g :: post) ctx h decisions data w
  = Decide_range (inner ++ post) ctx h decisions data (logged ctx name [format] w1).
Proof.
  intros Hn Hg. rewrite (bind_Ok _ _ _ _ _ (logf_named _ _ _ _ Hn)) in Hg.
  rewrite (Decide_range_head _ g (NewComposedDecider inner) _ _ _ _ _ _ _ Hg).
  apply Decide_range_nested.
Qed.

(** X8: at the head of a rule list, [OnStarted inner] is the rules [inner]
    put there, after one log line, on a workflow-execution-started event, and
    is as good as absent on an event of any other type; the same holds of
    [OnChildStarted] for child-workflow-execution-started events, of
    [OnData] for a predicate that holds, respectively does not hold, of the
    data, and of [OnSignalReceived] for a signaled event that bears,
    respectively does not bear, the signal name it was built with. *)
Theorem guard_splices inner post l ctx name h data w :
  WorkflowType_Name ctx = Some name ->
  (forall eventType,
      swf.EventType h = Some eventType ->
      Decide {| deciders := OnStarted inner :: post; last := l |} ctx h data w
      = if String.eqb eventType swf.EventTypeWorkflowExecutionStarted
        then Decide {| deciders := inner ++ post; last := l |} ctx h data
               (logged ctx name ["at=on-started"] w)
        else Decide {| deciders := post; last := l |} ctx h data w)
  /\ (forall eventType,
      swf.EventType h = Some eventType ->
      Decide {| deciders := OnChildStarted inner :: post; last := l |} ctx h data w
      = if String.eqb eventType swf.EventTypeChildWorkflowExecutionStarted
        then Decide {| deciders := inner ++ post; last := l |} ctx h data
               (logged ctx name ["at=on-child-started"] w)
        else Decide {| deciders := post; last := l |} ctx h data w)
  /\ (forall predicate w1 (holds : bool),
      predicate data w = (w1, Ok holds) ->
      Decide {| deciders := OnData predicate inner :: post; last := l |}
        ctx h data w
      = if holds
        then Decide {| deciders := inner ++ post; last := l |} ctx h data
               (logged ctx name ["at=on-data"] w1)
        else Decide {| deciders := post; last := l |} ctx h data w1)
  /\ (forall signalName attrs received,
      swf.EventType h = Some swf.EventTypeWorkflowExecutionSignaled ->
      swf.WorkflowExecutionSignaledEventAttributes_ h = Some attrs ->
      swf.ws_SignalName attrs = Some received ->
      Decide {| deciders := OnSignalReceived signalName inner :: post; last := l |}
        ctx h data w
      = if String.eqb received signalName
        then Decide {| deciders := inner ++ post; last := l |} ctx h data
               (logged ctx name ["at=on-signal-received"] w)
        else Decide {| deciders := post; last := l |} ctx h data w).
Proof.
  intros Hn. rewrite !Decide_unfold. cbn [deciders]. repeat split.
  - intros eventType Ht.
    destruct (String.eqb eventType swf.EventTypeWorkflowExecutionStarted) eqn:He.
    + apply guard_matched; [done|]. unfold OnStarted.
      rewrite (bind_Ok _ _ w w eventType) by (by rewrite Ht). by rewrite He.
    + apply Decide_range_Pass. unfold OnStarted.
      rewrite (bind_Ok _ _ w w eventType) by (by rewrite Ht). by rewrite He.
  - intros eventType Ht.
    destruct (String.eqb eventType swf.EventTypeChildWorkflowExecutionStarted)
      eqn:He.
    + apply guard_matched; [done|]. unfold OnChildStarted.
      rewrite (bind_Ok _ _ w w eventType) by (by rewrite Ht). by rewrite He.
    + apply Decide_range_Pass. unfold OnChildStarted.
      rewrite (bind_Ok _ _ w w eventType) by (by rewrite Ht). by rewrite He.
  - intros predicate w1 [] Hp.
    + apply guard_matched; [done|]. unfold OnData.
      by rewrite (bind_Ok _ _ _ _ _ Hp).
    + apply Decide_range_Pass. unfold OnData.
      by rewrite (bind_Ok _ _ _ _ _ Hp).
  - intros signalName attrs received Ht Ha Hr.
    assert (OnSignalReceived signalName inner ctx h data w
            = if String.eqb received signalName
              then (logf ctx "at=on-signal-received" ;;;
                    NewComposedDecider inner ctx h data) w
              else (w, Ok Pass)) as Hg.
    { unfold OnSignalReceived.
      rewrite (bind_Ok _ _ w w swf.EventTypeWorkflowExecutionSignaled)
        by (by rewrite Ht).
      cbn [String.eqb]. rewrite String.eqb_refl.
      rewrite (bind_Ok _ _ w w attrs) by (by rewrite Ha).
      rewrite (bind_Ok _ _ w w received) by (by rewrite Hr).
      by destruct (String.eqb received signalName). }
    destruct (String.eqb received signalName).
    + by apply guard_matched.
    + by apply Decide_range_Pass.
Qed.

(** X15: [UpdateState] contributes no decision and hands on the data it was
    given: at the head of a rule list, on a context whose workflow type has a
    name, it is one log line and one run of the state function, after which
    the other rules decide in the world the state function left; a panic of
    the state function is the panic of the composition. *)
Theorem UpdateState_then updateFunc post l ctx name h data w :
  WorkflowType_Name ctx = Some name ->
  (forall w1,
      updateFunc ctx h data (logged ctx name ["at=update-state"] w) = (w1, Ok tt) ->
      Decide {| deciders := UpdateState updateFunc :: post; last := l |}
        ctx h data w
      = Decide {| deciders := post; last := l |} ctx h data w1)
  /\ (forall w1 p,
      updateFunc ctx h data (logged ctx name ["at=update-state"] w)
      = (w1, Panic p) ->
      Decide {| deciders := UpdateState updateFunc :: post; last := l |}
        ctx h data w
      = (w1, Panic p)).
Proof.
  intros Hn. rewrite !Decide_unfold. cbn [deciders]. split.
  - intros w1 Hu.
    erewrite Decide_range_Continue; [by rewrite app_nil_r|].
    unfold UpdateState.
    rewrite (bind_Ok _ _ _ _ _ (logf_named _ _ _ _ Hn)).
    by rewrite (bind_Ok _ _ _ _ _ Hu).
  - intros w1 p Hu. apply Decide_range_Panic. unfold UpdateState.
    rewrite (bind_Ok _ _ _ _ _ (logf_named _ _ _ _ Hn)).
    by rewrite (bind_Panic _ _ _ _ _ Hu).
Qed.

Lemma activityNamed_found ctx h activityName w w1 activity name :
  FSMContext_ActivityInfo ctx h w = (w1, Ok (Some activity)) ->
  swf.at_Name activity = Some name ->
  activityNamed FSMContext_ActivityInfo ctx h activityName w
  = (w1, Ok (String.eqb name activityName)).
Proof.
  intros Hi Hname. unfold activityNamed.
  rewrite (bind_Ok _ _ _ _ _ Hi). cbn [deref].
  rewrite (bind_Ok _ _ w1 w1 activity) by reflexivity.
  by rewrite Hname.
Qed.

(** X9: [OnActivityFailed] answers three event types, activity-task-failed,
    -timed-out and -canceled: on each of them, when the activity the event
    refers to bears the given name, it logs and hands over to its rules, and
    when it bears another name it passes; [OnActivityCompleted] passes on all
    three without so much as looking the activity up.  On an
    activity-task-completed event the roles are swapped. *)
Theorem activity_guards activityName inner ctx h eventType data w w1 activity name :
  swf.EventType h = Some eventType ->
  FSMContext_ActivityInfo ctx h w = (w1, Ok (Some activity)) ->
  swf.at_Name activity = Some name ->
  (eventType = swf.EventTypeActivityTaskFailed
   \/ eventType = swf.EventTypeActivityTaskTimedOut
   \/ eventType = swf.EventTypeActivityTaskCanceled ->
   OnActivityFailed activityName inner ctx h data w
   = (if String.eqb name activityName
      then (logf ctx "at=on-activity-failed" ;;;
            NewComposedDecider inner ctx h data) w1
      else (w1, Ok Pass))
   /\ OnActivityCompleted activityName inner ctx h data w = (w, Ok Pass))
  /\ (eventType = swf.EventTypeActivityTaskCompleted ->
      OnActivityCompleted activityName inner ctx h data w
      = (if String.eqb name activityName
         then (logf ctx "at=on-activity-completed" ;;;
               NewComposedDecider inner ctx h data) w1
         else (w1, Ok Pass))
      /\ OnActivityFailed activityName inner ctx h data w = (w, Ok Pass)).
Proof.
  intros Ht Hi Hname.
  pose proof (activityNamed_found ctx h activityName w w1 activity name Hi Hname)
    as Hnamed.
  split.
  - intros Hfailed. split.
    + unfold OnActivityFailed.
      rewrite (bind_Ok _ _ w w eventType) by (by rewrite Ht).
      replace (String.eqb eventType swf.EventTypeActivityTaskFailed
               || String.eqb eventType swf.EventTypeActivityTaskTimedOut
               || String.eqb eventType swf.EventTypeActivityTaskCanceled)
        with true by (by destruct Hfailed as [->|[->| ->]]).
      rewrite (bind_Ok _ _ _ _ _ Hnamed).
      by destruct (String.eqb name activityName).
    + unfold OnActivityCompleted.
      rewrite (bind_Ok _ _ w w eventType) by (by rewrite Ht).
      by destruct Hfailed as [->|[->| ->]].
  - intros ->. split.
    + unfold OnActivityCompleted.
      rewrite (bind_Ok _ _ w w swf.EventTypeActivityTaskCompleted)
        by (by rewrite Ht).
      cbn [String.eqb]. rewrite String.eqb_refl, (bind_Ok _ _ _ _ _ Hnamed).
      by destruct (String.eqb name activityName).
    + unfold OnActivityFailed.
      by rewrite (bind_Ok _ _ w w swf.EventTypeActivityTaskCompleted)
        by (by rewrite Ht).
Qed.

(** The event is of the type the guard asks for. *)
Ltac same_type :=
  match goal with
  | |- context [String.eqb ?a ?b] => change (String.eqb a b) with true
  end;
  cbv iota.

(** X7: on a context whose workflow type has no name, each of the thirteen
    builders of deciders.go that log through [logf] panics on the nil
    dereference where it logs: [Stay] and [Transition] at once,
    [UpdateState] before its state function has run, [AddDecision] and
    [AddDecisions] after their decision function has, and each of the eight
    guards ([OnStarted], [OnChildStarted], [OnData], [OnSignalReceived],
    [OnSignalSent], [OnSignalFailed], [OnActivityCompleted],
    [OnActivityFailed]) when its event matched, before any of its rules
    runs. *)
Theorem builders_need_workflow_name ctx h data w :
  WorkflowType_Name ctx = None ->
  Stay ctx h data w = (w, Panic NilDereference)
  /\ (forall s, Transition s ctx h data w = (w, Panic NilDereference))
  /\ (forall updateFunc,
        UpdateState updateFunc ctx h data w = (w, Panic NilDereference))
  /\ (forall decisionFn w1 (decision : swf.Decision),
        decisionFn ctx h data w = (w1, Ok decision) ->
        AddDecision decisionFn ctx h data w = (w1, Panic NilDereference))
  /\ (forall signalFn w1 (decisions : list swf.Decision),
        signalFn ctx h data w = (w1, Ok decisions) ->
        AddDecisions signalFn ctx h data w = (w1, Panic NilDereference))
  /\ (forall inner,
        swf.EventType h = Some "WorkflowExecutionStarted" ->
        OnStarted inner ctx h data w = (w, Panic NilDereference))
  /\ (forall inner,
        swf.EventType h = Some "ChildWorkflowExecutionStarted" ->
        OnChildStarted inner ctx h data w = (w, Panic NilDereference))
  /\ (forall predicate inner w1,
        predicate data w = (w1, Ok true) ->
        OnData predicate inner ctx h data w = (w1, Panic NilDereference))
  /\ (forall signalName inner attrs,
        swf.EventType h = Some "WorkflowExecutionSignaled" ->
        swf.WorkflowExecutionSignaledEventAttributes_ h = Some attrs ->
        swf.ws_SignalName attrs = Some signalName ->
        OnSignalReceived signalName inner ctx h data w
        = (w, Panic NilDereference))
  /\ (forall signalName inner,
        swf.EventType h = Some "ExternalWorkflowExecutionSignaled" ->
        OnSignalSent signalName inner ctx h data w = (w, Panic NilDereference))
  /\ (forall signalName inner,
        swf.EventType h = Some "SignalExternalWorkflowExecutionFailed" ->
        OnSignalFailed signalName inner ctx h data w
        = (w, Panic NilDereference))
  /\ (forall activityName inner w1 activity,
        swf.EventType h = Some "ActivityTaskCompleted" ->
        FSMContext_ActivityInfo ctx h w = (w1, Ok (Some activity)) ->
        swf.at_Name activity = Some activityName ->
        OnActivityCompleted activityName inner ctx h data w
        = (w1, Panic NilDereference))
  /\ (forall activityName inner eventType w1 activity,
        swf.EventType h = Some eventType ->
        eventType = "ActivityTaskFailed"
        \/ eventType = "ActivityTaskTimedOut"
        \/ eventType = "ActivityTaskCanceled" ->
        FSMContext_ActivityInfo ctx h w = (w1, Ok (Some activity)) ->
        swf.at_Name activity = Some activityName ->
        OnActivityFailed activityName inner ctx h data w
        = (w1, Panic NilDereference)).
Proof.
  intros Hn.
  assert (forall format w, logf ctx format w = (w, Panic NilDereference))
    as Hlog by (intros; by apply logf_unnamed).
  repeat split.
  - unfold Stay. by rewrite (bind_Panic _ _ _ _ _ (Hlog _ _)).
  - intros s. unfold Transition. by rewrite (bind_Panic _ _ _ _ _ (Hlog _ _)).
  - intros u. unfold UpdateState. by rewrite (bind_Panic _ _ _ _ _ (Hlog _ _)).
  - intros f w1 decision Hf. unfold AddDecision.
    by rewrite (bind_Ok _ _ _ _ _ Hf), (bind_Panic _ _ _ _ _ (Hlog _ _)).
  - intros f w1 decisions Hf. unfold AddDecisions.
    by rewrite (bind_Ok _ _ _ _ _ Hf), (bind_Panic _ _ _ _ _ (Hlog _ _)).
  - intros inner Ht. unfold OnStarted.
    rewrite (bind_Ok _ _ w w "WorkflowExecutionStarted") by (by rewrite Ht).
    same_type.
    by rewrite (bind_Panic _ _ _ _ _ (Hlog _ _)).
  - intros inner Ht. unfold OnChildStarted.
    rewrite (bind_Ok _ _ w w "ChildWorkflowExecutionStarted")
      by (by rewrite Ht).
    same_type.
    by rewrite (bind_Panic _ _ _ _ _ (Hlog _ _)).
  - intros predicate inner w1 Hp. unfold OnData.
    by rewrite (bind_Ok _ _ _ _ _ Hp), (bind_Panic _ _ _ _ _ (Hlog _ _)).
  - intros signalName inner attrs Ht Ha Hs. unfold OnSignalReceived.
    rewrite (bind_Ok _ _ w w "WorkflowExecutionSignaled") by (by rewrite Ht).
    same_type.
    rewrite (bind_Ok _ _ w w attrs) by (by rewrite Ha).
    rewrite (bind_Ok _ _ w w signalName) by (by rewrite Hs).
    rewrite String.eqb_refl.
    by rewrite (bind_Panic _ _ _ _ _ (Hlog _ _)).
  - intros signalName inner Ht. unfold OnSignalSent.
    rewrite (bind_Ok _ _ w w "ExternalWorkflowExecutionSignaled")
      by (by rewrite Ht).
    same_type.
    by rewrite (bind_Panic _ _ _ _ _ (Hlog _ _)).
  - intros signalName inner Ht. unfold OnSignalFailed.
    rewrite (bind_Ok _ _ w w "SignalExternalWorkflowExecutionFailed")
      by (by rewrite Ht).
    same_type.
    by rewrite (bind_Panic _ _ _ _ _ (Hlog _ _)).
  - intros activityName inner w1 activity Ht Hi Hname.
    pose proof (activityNamed_found ctx h activityName w w1 activity
                  activityName Hi Hname) as Hnamed.
    rewrite String.eqb_refl in Hnamed.
    unfold OnActivityCompleted.
    rewrite (bind_Ok _ _ w w "ActivityTaskCompleted") by (by rewrite Ht).
    same_type.
    rewrite (bind_Ok _ _ _ _ _ Hnamed).
    by rewrite (bind_Panic _ _ _ _ _ (Hlog _ _)).
  - intros activityName inner eventType w1 activity Ht Hfailed Hi Hname.
    pose proof (activityNamed_found ctx h activityName w w1 activity
                  activityName Hi Hname) as Hnamed.
    rewrite String.eqb_refl in Hnamed.
    unfold OnActivityFailed.
    rewrite (bind_Ok _ _ w w eventType) by (by rewrite Ht).
    replace (String.eqb eventType swf.EventTypeActivityTaskFailed
             || String.eqb eventType swf.EventTypeActivityTaskTimedOut
             || String.eqb eventType swf.EventTypeActivityTaskCanceled)
      with true by (by destruct Hfailed as [->|[->| ->]]).
    rewrite (bind_Ok _ _ _ _ _ Hnamed).
    by rewrite (bind_Panic _ _ _ _ _ (Hlog _ _)).
Qed.

End BuilderFacts.

(** * Further properties of the managed continuations *)

Section ContinuationFacts.

Context {Data World : Type}.
Variables CompleteState ContinueTimer ContinueSignal : string.
Variable StayState : FSMContext -> string.

Local Abbreviation handleContinuationTimer :=
  (@handleContinuationTimer Data World StayState ContinueTimer).
Local Abbreviation handleContinuationSignal :=
  (@handleContinuationSignal Data World StayState ContinueTimer ContinueSignal).
Local Abbreviation signalContinuationWhenHistoryLarge :=
  (@signalContinuationWhenHistoryLarge Data World StayState ContinueSignal).
Local Abbreviation ManagedContinuations :=
  (@ManagedContinuations Data World CompleteState StayState ContinueTimer
     ContinueSignal).
Local Abbreviation isContinueTimerFired := (isContinueTimerFired ContinueTimer).
Local Abbreviation isContinueSignaled := (isContinueSignaled ContinueSignal).
Local Abbreviation continuationReadable :=
  (continuationReadable ContinueTimer ContinueSignal).

Implicit Types (ctx : FSMContext) (h : swf.HistoryEvent) (data : Data) (w : World).



End ContinuationFacts.

(** * Further properties of the typed building blocks *)

Section TypedFacts.

Context {Data World : Type}.

Local Abbreviation Value := (@Value Data World).
Local Abbreviation typeCheck := (@typeCheck Data World).
Local Abbreviation typeCheck_in := (@typeCheck_in World).
Local Abbreviation typeCheck_out := (@typeCheck_out World).

Implicit Types (t : reflect.rtype) (w : World).

Lemma typeCheck_in_mismatch t tpre : forall tdone ti tsuf want suf w,
  reflect.ins t = tdone ++ tpre ++ ti :: tsuf ->
  want <> reflect.String_ ti ->
  typeCheck_in t (length tdone) ((reflect.String_ <$> tpre) ++ want :: suf) w
  = (w, Panic (TypeCheck (ArgumentType (length tdone + length tpre)
                            (reflect.String_ ti) want))).
Proof.
  induction tpre as [|a tpre IH]; intros tdone ti tsuf want suf w Hins Hne;
    cbn [app] in Hins.
  - cbn [fmap list_fmap app typeCheck_in length]. unfold reflect.In.
    rewrite Hins, list_lookup_middle by done.
    rewrite (bind_Ok _ _ w w ti) by reflexivity.
    apply String.eqb_neq in Hne. rewrite Hne, Nat.add_0_r. reflexivity.
  - cbn [fmap list_fmap app typeCheck_in length]. unfold reflect.In.
    rewrite Hins, list_lookup_middle by done.
    rewrite (bind_Ok _ _ w w a) by reflexivity.
    rewrite String.eqb_refl. cbn [negb].
    replace (S (length tdone)) with (length (tdone ++ [a]))
      by (rewrite length_app; cbn; lia).
    rewrite (IH (tdone ++ [a]) ti tsuf want suf w); [|by rewrite <- app_assoc|done].
    rewrite length_app. cbn [length]. do 4 f_equal. lia.
Qed.

Lemma typeCheck_out_mismatch t tpre : forall tdone ti tsuf want suf w,
  reflect.outs t = tdone ++ tpre ++ ti :: tsuf ->
  want <> reflect.String_ ti ->
  typeCheck_out t (length tdone) ((reflect.String_ <$> tpre) ++ want :: suf) w
  = (w, Panic (TypeCheck (ReturnType (length tdone + length tpre)
                            (reflect.String_ ti) want))).
Proof.
  induction tpre as [|a tpre IH]; intros tdone ti tsuf want suf w Houts Hne;
    cbn [app] in Houts.
  - cbn [fmap list_fmap app typeCheck_out length]. unfold reflect.Out.
    rewrite Houts, list_lookup_middle by done.
    rewrite (bind_Ok _ _ w w ti) by reflexivity.
    apply String.eqb_neq in Hne. rewrite Hne, Nat.add_0_r. reflexivity.
  - cbn [fmap list_fmap app typeCheck_out length]. unfold reflect.Out.
    rewrite Houts, list_lookup_middle by done.
    rewrite (bind_Ok _ _ w w a) by reflexivity.
    rewrite String.eqb_refl. cbn [negb].
    replace (S (length tdone)) with (length (tdone ++ [a]))
      by (rewrite length_app; cbn; lia).
    rewrite (IH (tdone ++ [a]) ti tsuf want suf w); [|by rewrite <- app_assoc|done].
    rewrite length_app. cbn [length]. do 4 f_equal. lia.
Qed.

Lemma typeCheck_in_ok t w :
  typeCheck_in t 0 (reflect.String_ <$> reflect.ins t) w = (w, Ok tt).
Proof.
  apply (typeCheck_in_spec t _ 0 w).
  - unfold reflect.NumIn. by rewrite length_fmap.
  - by rewrite drop_0.
Qed.

(** X12: which panic [typeCheck] raises.  The checks come in a fixed order
    and the first that fails decides: a nil callback is a nil dereference; a
    callback that is not a function is refused for its kind, whatever its
    types; then the number of parameters; then the parameters from left to
    right, the first one whose type prints differently being the one
    reported, with its position; and only for a callback whose parameters all
    match, the number of results and then the results from left to right. *)
Theorem typeCheck_first_failure (f : Value) (in_ out : list string) w :
  let t := TypeOf f in
  typeCheck None in_ out w = (w, Panic NilDereference)
  /\ (reflect.Kind_eqb reflect.Func (reflect.Kind_ t) = false ->
      typeCheck (Some f) in_ out w = (w, Panic (TypeCheck KindNotFunc)))
  /\ (reflect.Kind_eqb reflect.Func (reflect.Kind_ t) = true ->
      (length in_ <> reflect.NumIn t ->
       typeCheck (Some f) in_ out w
       = (w, Panic (TypeCheck (InputArity (reflect.NumIn t) (length in_)))))
      /\ (forall tpre ti tsuf want suf,
            reflect.ins t = tpre ++ ti :: tsuf ->
            in_ = (reflect.String_ <$> tpre) ++ want :: suf ->
            length suf = length tsuf ->
            want <> reflect.String_ ti ->
            typeCheck (Some f) in_ out w
            = (w, Panic (TypeCheck (ArgumentType (length tpre)
                                      (reflect.String_ ti) want))))
      /\ (in_ = reflect.String_ <$> reflect.ins t ->
          (length out <> reflect.NumOut t ->
           typeCheck (Some f) in_ out w
           = (w, Panic (TypeCheck (ReturnArity (reflect.NumOut t) (length out)))))
          /\ (forall tpre ti tsuf want suf,
                reflect.outs t = tpre ++ ti :: tsuf ->
                out = (reflect.String_ <$> tpre) ++ want :: suf ->
                length suf = length tsuf ->
                want <> reflect.String_ ti ->
                typeCheck (Some f) in_ out w
                = (w, Panic (TypeCheck (ReturnType (length tpre)
                                          (reflect.String_ ti) want)))))).
Proof.
  intros t. split; [reflexivity|].
  unfold typeCheck. rewrite (bind_Ok _ _ w w t) by reflexivity.
  split; [by intros ->|]. intros ->. cbn [negb].
  split; [|split].
  - intros Hlen. apply Nat.eqb_neq in Hlen. by rewrite Hlen.
  - intros tpre ti tsuf want suf Hins -> Hlen Hne.
    replace (Nat.eqb _ (reflect.NumIn t)) with true.
    2:{ symmetry. apply Nat.eqb_eq. unfold reflect.NumIn.
        rewrite Hins, !length_app, length_fmap. cbn. lia. }
    cbn [negb].
    by rewrite (bind_Panic _ _ _ _ _
                  (typeCheck_in_mismatch t tpre [] ti tsuf want suf w Hins Hne)).
  - intros ->.
    replace (Nat.eqb _ (reflect.NumIn t)) with true
      by (symmetry; apply Nat.eqb_eq; unfold reflect.NumIn; by rewrite length_fmap).
    cbn [negb]. rewrite (bind_Ok _ _ _ _ _ (typeCheck_in_ok t w)).
    split.
    + intros Hlen. apply Nat.eqb_neq in Hlen. by rewrite Hlen.
    + intros tpre ti tsuf want suf Houts -> Hlen Hne.
      replace (Nat.eqb _ (reflect.NumOut t)) with true.
      2:{ symmetry. apply Nat.eqb_eq. unfold reflect.NumOut.
          rewrite Houts, !length_app, length_fmap. cbn. lia. }
      cbn [negb].
      exact (typeCheck_out_mismatch t tpre [] ti tsuf want suf w Houts Hne).
Qed.

Local Abbreviation Any := (@Any Data).

Lemma call0_Ok (callback : Value) (args : list Any) w w' r rest :
  Call callback args w = (w', Ok (r :: rest)) ->
  call0 {| v := Some callback |} args w = (w', Ok r).
Proof.
  intros Hc. unfold call0. cbn [v].
  rewrite (bind_Ok _ _ w w callback) by reflexivity.
  by rewrite (bind_Ok _ _ _ _ _ Hc).
Qed.

Lemma call0_Panic (callback : Value) (args : list Any) w w' p :
  Call callback args w = (w', Panic p) ->
  call0 {| v := Some callback |} args w = (w', Panic p).
Proof.
  intros Hc. unfold call0. cbn [v].
  rewrite (bind_Ok _ _ w w callback) by reflexivity.
  by rewrite (bind_Panic _ _ _ _ _ Hc).
Qed.

(** What a constructor of [TypedFuncs] returns, when it returns, is the
    adapter around the callback it was given. *)
Lemma constructed {A} (t : TypedFuncs) (check : string -> M World unit) (a x : A)
    w0 w1 :
  (ta <- typeArg t ;; check ta ;;; ret a) w0 = (w1, Ok x) -> x = a.
Proof.
  unfold bind. destruct (typeArg t w0) as [w [ta|]]; [|done].
  destruct (check ta w) as [w2 [[]|]]; [|done]. by intros [= _ <-].
Qed.

(** X13: the adapter a constructor of [TypedFuncs] returns hands the
    context, the event and the data (the data alone, for a predicate) to the
    callback and gives back the callback's first result, in the world the
    callback left: the outcome, nil included, for [Decider]; the decision
    for [DecisionFunc]; the decisions for [MultiDecisionFunc]; the truth
    value for [PredicateFunc]; nothing for [StateFunc], whatever the callback
    returned.  A panic of the callback is the adapter's panic. *)
Theorem adapters_relay (t : TypedFuncs) (callback : Value) w0 w1 ctx h data w w' :
  let args := [AnyContext ctx; AnyEvent h; AnyData data] in
  (forall adapter,
      TypedFuncs_Decider t (Some callback) w0 = (w1, Ok adapter) ->
      (forall o rest,
          Call callback args w = (w', Ok (AnyOutcome o :: rest)) ->
          adapter ctx h data w = (w', Ok o))
      /\ (forall p, Call callback args w = (w', Panic p) ->
                    adapter ctx h data w = (w', Panic p)))
  /\ (forall adapter,
      TypedFuncs_DecisionFunc t (Some callback) w0 = (w1, Ok adapter) ->
      (forall d rest,
          Call callback args w = (w', Ok (AnyDecision d :: rest)) ->
          adapter ctx h data w = (w', Ok d))
      /\ (forall p, Call callback args w = (w', Panic p) ->
                    adapter ctx h data w = (w', Panic p)))
  /\ (forall adapter,
      TypedFuncs_MultiDecisionFunc t (Some callback) w0 = (w1, Ok adapter) ->
      (forall ds rest,
          Call callback args w = (w', Ok (AnyDecisions ds :: rest)) ->
          adapter ctx h data w = (w', Ok ds))
      /\ (forall p, Call callback args w = (w', Panic p) ->
                    adapter ctx h data w = (w', Panic p)))
  /\ (forall adapter,
      TypedFuncs_StateFunc t (Some callback) w0 = (w1, Ok adapter) ->
      (forall rets,
          Call callback args w = (w', Ok rets) ->
          adapter ctx h data w = (w', Ok tt))
      /\ (forall p, Call callback args w = (w', Panic p) ->
                    adapter ctx h data w = (w', Panic p)))
  /\ (forall adapter,
      TypedFuncs_PredicateFunc t (Some callback) w0 = (w1, Ok adapter) ->
      (forall b rest,
          Call callback [AnyData data] w = (w', Ok (AnyBool b :: rest)) ->
          adapter data w = (w', Ok b))
      /\ (forall p, Call callback [AnyData data] w = (w', Panic p) ->
                    adapter data w = (w', Panic p))).
Proof.
  intros args. repeat split.
  - intros o rest Hc. apply constructed in H. subst adapter.
    unfold marshalledFunc_decider.
    rewrite (bind_Ok _ _ _ _ _ (call0_Ok _ _ _ _ _ _ Hc)). by destruct o.
  - intros p Hc. apply constructed in H. subst adapter.
    unfold marshalledFunc_decider.
    by rewrite (bind_Panic _ _ _ _ _ (call0_Panic _ _ _ _ _ Hc)).
  - intros d rest Hc. apply constructed in H. subst adapter.
    unfold marshalledFunc_decisionFunc.
    by rewrite (bind_Ok _ _ _ _ _ (call0_Ok _ _ _ _ _ _ Hc)).
  - intros p Hc. apply constructed in H. subst adapter.
    unfold marshalledFunc_decisionFunc.
    by rewrite (bind_Panic _ _ _ _ _ (call0_Panic _ _ _ _ _ Hc)).
  - intros ds rest Hc. apply constructed in H. subst adapter.
    unfold marshalledFunc_multiDecisionFunc.
    by rewrite (bind_Ok _ _ _ _ _ (call0_Ok _ _ _ _ _ _ Hc)).
  - intros p Hc. apply constructed in H. subst adapter.
    unfold marshalledFunc_multiDecisionFunc.
    by rewrite (bind_Panic _ _ _ _ _ (call0_Panic _ _ _ _ _ Hc)).
  - intros rets Hc. apply constructed in H. subst adapter.
    unfold marshalledFunc_stateFunc. cbn [v].
    rewrite (bind_Ok _ _ w w callback) by reflexivity.
    by rewrite (bind_Ok _ _ _ _ _ Hc).
  - intros p Hc. apply constructed in H. subst adapter.
    unfold marshalledFunc_stateFunc. cbn [v].
    rewrite (bind_Ok _ _ w w callback) by reflexivity.
    by rewrite (bind_Panic _ _ _ _ _ Hc).
  - intros b rest Hc. apply constructed in H. subst adapter.
    unfold marshalledFunc_predicateFunc.
    by rewrite (bind_Ok _ _ _ _ _ (call0_Ok _ _ _ _ _ _ Hc)).
  - intros p Hc. apply constructed in H. subst adapter.
    unfold marshalledFunc_predicateFunc.
    by rewrite (bind_Panic _ _ _ _ _ (call0_Panic _ _ _ _ _ Hc)).
Qed.

End TypedFacts.

(** * Further properties of the dispatcher test *)

Lemma int32_small z : (- 2 ^ 31 <= z < 2 ^ 31)%Z -> int32 z = z.
Proof. intros Hz. unfold int32. rewrite Z.mod_small; lia. Qed.

(** The loop of the test on the inline dispatcher, from a count [handled]
    below the total with nothing in [done]: [n] more tasks bring the count to
    [handled + n], and [done] holds its one token once the total is reached. *)
Lemma dispatchLoop_inline task totalTasks n : forall handled,
  (0 <= handled < totalTasks)%Z ->
  (handled + Z.of_nat n <= totalTasks < 2 ^ 31)%Z ->
  dispatchLoop CallingGoroutineDispatcher_DispatchTask task
    (testHandler totalTasks) n {| tasksHandled := handled; done := [] |}
  = ({| tasksHandled := handled + Z.of_nat n;
        done := if Z.eqb (handled + Z.of_nat n) totalTasks then [tt] else [] |},
     Ok tt).
Proof.
  induction n as [|n IH]; intros handled Hh Hn.
  - cbn. rewrite Z.add_0_r.
    by destruct (Z.eqb_spec handled totalTasks); [lia|].
  - cbn [dispatchLoop]. unfold CallingGoroutineDispatcher_DispatchTask at 1.
    unfold bind, testHandler at 1. cbn [tasksHandled done length Nat.ltb Nat.leb].
    rewrite int32_small by lia.
    destruct (Z.eqb_spec (handled + 1) totalTasks) as [Heq|Hne].
    + destruct n as [|n]; [|lia]. unfold dispatchLoop, ret.
      change (Z.of_nat 1) with 1%Z.
      by destruct (Z.eqb_spec (handled + 1) totalTasks).
    + rewrite IH by lia.
      by replace (handled + 1 + Z.of_nat n)%Z with (handled + Z.of_nat (S n))%Z
        by lia.
Qed.

(** X14: on the inline dispatcher the loop of the dispatcher test, for any
    positive number of tasks that fits an [int32], ends with every task
    handled once and exactly one token in [done], so that the test finds
    [done] ready; the handler never finds the channel full. *)
Theorem testDispatcher_loop_inline task totalTasks :
  (0 < totalTasks < 2 ^ 31)%Z ->
  dispatchLoop CallingGoroutineDispatcher_DispatchTask task
    (testHandler totalTasks) (Z.to_nat totalTasks)
    {| tasksHandled := 0; done := [] |}
  = ({| tasksHandled := totalTasks; done := [tt] |}, Ok tt).
Proof.
  intros Ht. rewrite dispatchLoop_inline by lia.
  rewrite Z2Nat.id, Z.add_0_l, Z.eqb_refl by lia. reflexivity.
Qed.

(** * The properties at concrete inputs *)

Import Examples.

(** C1, the claim as stated fails: a composition whose only rule returns a
    Complete outcome does not return a Complete outcome; it returns a
    Transition outcome to the state the Complete outcome reports. *)
Lemma Decide_of_Complete_is_Transition :
  completes idle activityCompleted 0%Z []
  = ([], Ok (Some (CompleteOutcome 0%Z [decision "CompleteWorkflowExecution"])))
  /\ Decide CompleteState closing idle activityCompleted 0%Z []
     = ([], Ok (Some (TransitionOutcome 0%Z "complete"
                        [decision "CompleteWorkflowExecution"])))
  /\ match snd (Decide CompleteState closing idle activityCompleted 0%Z []) with
     | Ok o => isCompleteOutcome o
     | Panic _ => false
     end = false.
Proof. repeat split. Qed.

Lemma Decide_ends_with_Transition_witness :
  deciders order = [schedules; passes] ++ completes :: [ships]
  /\ fold_through [schedules; passes] idle activityCompleted 0%Z []
     = Some ([ContinueOutcome 1%Z [decision "ScheduleActivityTask"]; PassOutcome],
             1%Z, [])
  /\ Decide CompleteState order idle activityCompleted 0%Z []
     = ([], Ok (Some (TransitionOutcome 1%Z "complete"
                        [decision "ScheduleActivityTask";
                         decision "CompleteWorkflowExecution"]))).
Proof.
  split; [reflexivity|]. split; [reflexivity|].
  apply (proj2 (Decide_ends_with_Transition CompleteState order
                  [schedules; passes] completes [ships] idle activityCompleted
                  0%Z [] _ 1%Z [] eq_refl eq_refl)).
  reflexivity.
Defined.

Lemma composition_short_circuit_witness :
  deciders shipping = [schedules; passes] ++ ships :: [completes]
  /\ fold_through [schedules; passes] idle activityCompleted 0%Z []
     = Some ([ContinueOutcome 1%Z [decision "ScheduleActivityTask"]; PassOutcome],
             1%Z, [])
  /\ ships idle activityCompleted 1%Z []
     = ([], Ok (Some (TransitionOutcome 1%Z "shipped" [decision "RecordMarker"])))
  /\ ((exists dat st,
          Decide CompleteState shipping idle activityCompleted 0%Z []
          = ([], Ok (Some (TransitionOutcome dat st
                             [decision "ScheduleActivityTask";
                              decision "RecordMarker"]))))
      /\ Decide CompleteState shipping idle activityCompleted 0%Z []
         = Decide CompleteState
             {| deciders := [schedules; passes; ships]; last := false |}
             idle activityCompleted 0%Z []).
Proof.
  split; [reflexivity|]. split; [reflexivity|]. split; [reflexivity|].
  exact (composition_short_circuit CompleteState shipping [schedules; passes]
           ships [completes] idle activityCompleted 0%Z [] _ 1%Z [] [] _
           eq_refl eq_refl eq_refl eq_refl).
Defined.

Lemma fallthrough_default_witness :
  (forall d, d ∈ deciders nothing ->
     forall w, exists w', d idle activityCompleted 7%Z w = (w', Ok Pass))
  /\ exists w',
       Decide CompleteState nothing idle activityCompleted 7%Z []
       = (w', Ok (Some (ContinueOutcome 7%Z []))).
Proof.
  assert (forall d, d ∈ deciders nothing ->
            forall w, exists w', d idle activityCompleted 7%Z w = (w', Ok Pass))
    as Hall.
  { intros d Hd w. exists w. cbn in Hd.
    rewrite !elem_of_cons, elem_of_nil in Hd.
    destruct Hd as [->|[->|[]]]; reflexivity. }
  split; [exact Hall|].
  exact (fallthrough_default CompleteState nothing idle activityCompleted 7%Z
           Hall []).
Defined.

Lemma pass_transparency_witness :
  (forall data w, passes idle activityCompleted data w = (w, Ok Pass))
  /\ deciders padded = replaceAt {[0; 2; 4]} passes 0 (deciders order5)
  /\ deciders bare = removeAt {[0; 2; 4]} 0 (deciders order5)
  /\ Decide CompleteState padded idle activityCompleted 0%Z []
     = Decide CompleteState bare idle activityCompleted 0%Z [].
Proof.
  split; [reflexivity|]. split; [reflexivity|]. split; [reflexivity|].
  exact (proj1 (pass_transparency CompleteState passes order5 idle
                  activityCompleted (fun data w => eq_refl))
           {[0; 2; 4]} padded bare eq_refl eq_refl 0%Z []).
Defined.

(** Putting the Pass rule in between the rules of the bare composition gives
    the padded one, with the same result. *)
Example pass_inserted :
  strip slots = deciders bare
  /\ deciders padded = fill passes slots
  /\ Decide CompleteState padded idle activityCompleted 0%Z []
     = ([], Ok (Some (TransitionOutcome 1%Z "shipped"
                        [decision "ScheduleActivityTask";
                         decision "RecordMarker"])))
  /\ Decide CompleteState bare idle activityCompleted 0%Z []
     = ([], Ok (Some (TransitionOutcome 1%Z "shipped"
                        [decision "ScheduleActivityTask";
                         decision "RecordMarker"]))).
Proof. repeat split. Qed.


(** The same event while no activity is outstanding: the one decision is
    continue-as-new with the current state name. *)
Example continuation_timer_no_activity :
  ManagedContinuations CompleteState StayState ContinueTimer ContinueSignal
    10 30 idle (continueTimerFired 5) 0%Z ([] : World)
  = ([], Ok (Some (TransitionOutcome 0%Z "working"
       [ {| swf.DecisionType := Some "ContinueAsNewWorkflowExecution";
            swf.StartTimerDecisionAttributes_ := None;
            swf.SignalExternalWorkflowExecutionDecisionAttributes_ := None;
            swf.ContinueAsNewWorkflowExecutionDecisionAttributes_ :=
              Some {| swf.ca_Input := Some "working" |} |} ]))).
Proof. reflexivity. Qed.



(** Up to the threshold the history-size rule passes and the composition
    runs through with no decision. *)
Example history_threshold_not_exceeded :
  signalContinuationWhenHistoryLarge StayState ContinueSignal 10 idle
    (event "ActivityTaskCompleted" 10) 0%Z ([] : World)
  = ([], Ok Pass)
  /\ ManagedContinuations CompleteState StayState ContinueTimer ContinueSignal
       10 30 idle (event "ActivityTaskCompleted" 10) 0%Z ([] : World)
     = ([], Ok (Some (ContinueOutcome 0%Z []))).
Proof. split; reflexivity. Qed.

Lemma signal_name_never_consulted_witness :
  swf.EventType (signalSent 4) = Some swf.EventTypeExternalWorkflowExecutionSignaled
  /\ swf.EventType (signalFailed 4)
     = Some swf.EventTypeSignalExternalWorkflowExecutionFailed
  /\ OnSignalSent CompleteState "approve" [ships] idle (signalSent 4) 0%Z
       ([] : World)
     = (logf idle "at=on-signal-sent" ;;;
        NewComposedDecider CompleteState [ships] idle (signalSent 4) 0%Z) []
  /\ OnSignalFailed CompleteState "approve" [ships] idle (signalFailed 4) 0%Z
       ([] : World)
     = (logf idle "at=on-signal-failed" ;;;
        NewComposedDecider CompleteState [ships] idle (signalFailed 4) 0%Z) [].
Proof.
  split; [reflexivity|]. split; [reflexivity|]. split.
  - exact (proj1 (signal_name_never_consulted CompleteState [ships] idle
                    (signalSent 4) 0%Z []) eq_refl "approve").
  - exact (proj1 (proj2 (signal_name_never_consulted CompleteState [ships] idle
                           (signalFailed 4) 0%Z [])) eq_refl "approve").
Defined.

(** The decider built for signal "approve" runs its rules on the event of a
    signal sent from event 4 and on the one sent from event 6 alike. *)
Example OnSignalSent_any_signal :
  OnSignalSent CompleteState "approve" [ships] idle (signalSent 4) 0%Z ([] : World)
  = ([{| log_workflow := "orders"; log_workflowID := Some "order-17";
         log_state := "working"; log_format := "at=on-signal-sent" |}],
     Ok (Some (TransitionOutcome 0%Z "shipped" [decision "RecordMarker"])))
  /\ snd (OnSignalSent CompleteState "reject" [ships] idle (signalSent 6) 0%Z
            ([] : World))
     = Ok (Some (TransitionOutcome 0%Z "shipped" [decision "RecordMarker"])).
Proof. split; reflexivity. Qed.

(** The package's own typed decider constructs; the one that takes the payload
    by value is refused at construction, on its third parameter. *)
Example TypedFuncs_Decider_constructs :
  TypedFuncs_Decider (Typed (Some payloadType)) (Some TestingDecider) ([] : World)
  = ([], Ok (marshalledFunc_decider {| v := Some TestingDecider |})).
Proof. reflexivity. Qed.

Example TypedFuncs_Decider_refuses :
  TypedFuncs_Decider (Typed (Some payloadType)) (Some byValueDecider) ([] : World)
  = ([], Panic (TypeCheck (ArgumentType 2 "fsm.TestingType" "*fsm.TestingType"))).
Proof. reflexivity. Qed.


(** One dispatch on the inline dispatcher: the handler's log line is there,
    and one invocation is on record, when [DispatchTask] has returned. *)
Example inline_dispatch_once :
  CallingGoroutineDispatcher_DispatchTask task (recording logsTask)
    (([] : World), [])
  = (([{| log_workflow := "orders"; log_workflowID := Some "token";
          log_state := ""; log_format := "at=handle" |}], [task]), Ok tt).
Proof. reflexivity. Qed.

(** ** The further properties at concrete inputs *)

Lemma Decide_outcome_shape_witness :
  Decide CompleteState order idle activityCompleted 0%Z []
  = ([], Ok (Some (TransitionOutcome 1%Z "complete"
                     [decision "ScheduleActivityTask";
                      decision "CompleteWorkflowExecution"])))
  /\ (Some (TransitionOutcome 1%Z "complete"
              [decision "ScheduleActivityTask";
               decision "CompleteWorkflowExecution"]) <> None
      /\ Some (TransitionOutcome 1%Z "complete"
                 [decision "ScheduleActivityTask";
                  decision "CompleteWorkflowExecution"]) <> Pass
      /\ isCompleteOutcome
           (Some (TransitionOutcome 1%Z "complete"
                    [decision "ScheduleActivityTask";
                     decision "CompleteWorkflowExecution"])) = false).
Proof.
  split; [reflexivity|].
  exact (Decide_outcome_shape CompleteState order idle activityCompleted 0%Z []
           [] _ eq_refl).
Defined.

Lemma Decide_Transition_inv_witness :
  Decide CompleteState shipping idle activityCompleted 0%Z []
  = ([], Ok (Some (TransitionOutcome 1%Z "shipped"
                     [decision "ScheduleActivityTask"; decision "RecordMarker"])))
  /\ exists pre d post os data1 w1 o,
       deciders shipping = pre ++ d :: post
       /\ fold_through pre idle activityCompleted 0%Z [] = Some (os, data1, w1)
       /\ d idle activityCompleted data1 w1 = ([], Ok (Some o))
       /\ ends o = true
       /\ [decision "ScheduleActivityTask"; decision "RecordMarker"]
          = concat (contributed <$> os ++ [o]).
Proof.
  split; [reflexivity|].
  exact (Decide_Transition_inv CompleteState shipping idle activityCompleted 0%Z
           [] [] 1%Z "shipped" _ eq_refl).
Defined.

Lemma Decide_Panic_iff_witness :
  (forall (d : @Decider Z World) data1 w1,
      d ∈ [schedules; crashes; ships] ->
      snd (d idle activityCompleted data1 w1) <> Ok None)
  /\ (Decide CompleteState
        {| deciders := [schedules; crashes; ships]; last := false |}
        idle activityCompleted 0%Z []
      = ([], Panic (UserPanic "no such order"))
      <-> exists pre d post os data1 w1,
            [schedules; crashes; ships] = pre ++ d :: post
            /\ fold_through pre idle activityCompleted 0%Z []
               = Some (os, data1, w1)
            /\ d idle activityCompleted data1 w1
               = ([], Panic (UserPanic "no such order"))).
Proof.
  assert (forall (d : @Decider Z World) data1 w1,
            d ∈ [schedules; crashes; ships] ->
            snd (d idle activityCompleted data1 w1) <> Ok None) as Hall.
  { intros d data1 w1 Hd. rewrite !elem_of_cons, elem_of_nil in Hd.
    destruct Hd as [->|[->|[->|[]]]]; discriminate. }
  split; [exact Hall|].
  exact (Decide_Panic_iff CompleteState
           {| deciders := [schedules; crashes; ships]; last := false |}
           idle activityCompleted 0%Z [] [] (UserPanic "no such order") Hall).
Defined.

Lemma AddDecision_stack_witness :
  WorkflowType_Name idle = Some "orders"
  /\ Decide CompleteState
       {| deciders := ((fun f => AddDecision (pureDecision f)) <$> decisionFns)
                      ++ [Transition "shipped"];
          last := false |} idle activityCompleted 0%Z []
     = ([line "at=decide"; line "at=decide"; line "at=transition"],
        Ok (Some (TransitionOutcome 0%Z "shipped"
                    [decision "ScheduleActivityTask"; decision "RecordMarker"]))).
Proof.
  split; [reflexivity|].
  exact (AddDecision_stack CompleteState decisionFns "shipped" false idle "orders"
           activityCompleted 0%Z [] eq_refl).
Defined.

Lemma builders_need_workflow_name_witness :
  WorkflowType_Name anonymous = None
  /\ Stay StayState anonymous started 0%Z ([] : World)
     = ([], Panic NilDereference)
  /\ UpdateState touches anonymous started 0%Z ([] : World)
     = ([], Panic NilDereference)
  /\ OnStarted CompleteState [ships] anonymous started 0%Z ([] : World)
     = ([], Panic NilDereference)
  /\ OnSignalSent CompleteState "approve" [ships] anonymous (signalSent 4) 0%Z
       ([] : World)
     = ([], Panic NilDereference).
Proof.
  split; [reflexivity|].
  pose proof (builders_need_workflow_name (World := World) CompleteState
                StayState activityInfo anonymous started 0%Z [] eq_refl)
    as (HStay & _ & HUpdate & _ & _ & HOn & _).
  pose proof (builders_need_workflow_name (World := World) CompleteState
                StayState activityInfo anonymous (signalSent 4) 0%Z [] eq_refl)
    as (_ & _ & _ & _ & _ & _ & _ & _ & _ & HSent & _).
  split; [exact HStay|]. split; [exact (HUpdate touches)|].
  split; [exact (HOn [ships] eq_refl)|].
  exact (HSent "approve" [ships] eq_refl).
Defined.

Lemma guard_splices_witness :
  WorkflowType_Name idle = Some "orders"
  /\ swf.EventType started = Some swf.EventTypeWorkflowExecutionStarted
  /\ Decide CompleteState
       {| deciders := OnStarted CompleteState [schedules] :: [ships];
          last := false |} idle started 0%Z []
     = Decide CompleteState {| deciders := [schedules] ++ [ships]; last := false |}
         idle started 0%Z [line "at=on-started"].
Proof.
  split; [reflexivity|]. split; [reflexivity|].
  exact (proj1 (guard_splices CompleteState [schedules] [ships] false idle "orders"
                  started 0%Z [] eq_refl)
           swf.EventTypeWorkflowExecutionStarted eq_refl).
Defined.

Lemma activity_guards_witness :
  swf.EventType timedOut = Some swf.EventTypeActivityTaskTimedOut
  /\ activityInfo busy timedOut [] = ([], Ok (Some charge))
  /\ swf.at_Name charge = Some "charge"
  /\ OnActivityFailed CompleteState activityInfo "charge" [ships] busy timedOut 0%Z []
     = ([line "at=on-activity-failed"],
        Ok (Some (TransitionOutcome 0%Z "shipped" [decision "RecordMarker"])))
  /\ OnActivityCompleted CompleteState activityInfo "charge" [ships] busy timedOut
       0%Z []
     = ([], Ok Pass).
Proof.
  split; [reflexivity|]. split; [reflexivity|]. split; [reflexivity|].
  exact (proj1 (activity_guards CompleteState activityInfo "charge" [ships] busy
                  timedOut swf.EventTypeActivityTaskTimedOut 0%Z [] [] charge
                  "charge" eq_refl eq_refl eq_refl)
           (or_intror (or_introl eq_refl))).
Defined.


(** The continue timer firing without an identifier is handled all the
    same; any other event without one makes the history-size rule panic. *)
Example ManagedContinuations_identifier_unread :
  snd (ManagedContinuations CompleteState StayState ContinueTimer ContinueSignal
         10 30 idle
         {| swf.EventType := Some "TimerFired";
            swf.EventID := None;
            swf.TimerFiredEventAttributes_ := Some continueTimerAttributes;
            swf.WorkflowExecutionSignaledEventAttributes_ := None;
            swf.ExternalWorkflowExecutionSignaledEventAttributes_ := None;
            swf.SignalExternalWorkflowExecutionFailedEventAttributes_ := None |}
         0%Z ([] : World))
  = Ok (Some (TransitionOutcome 0%Z "working"
                [FSMContext_ContinueWorkflowDecision idle "working"]))
  /\ ManagedContinuations CompleteState StayState ContinueTimer ContinueSignal
       10 30 idle
       {| swf.EventType := Some "ActivityTaskCompleted";
          swf.EventID := None;
          swf.TimerFiredEventAttributes_ := None;
          swf.WorkflowExecutionSignaledEventAttributes_ := None;
          swf.ExternalWorkflowExecutionSignaledEventAttributes_ := None;
          swf.SignalExternalWorkflowExecutionFailedEventAttributes_ := None |}
       0%Z ([] : World)
     = ([], Panic NilDereference).
Proof. split; reflexivity. Qed.

Lemma testDispatcher_loop_inline_witness :
  (0 < 3 < 2 ^ 31)%Z
  /\ dispatchLoop CallingGoroutineDispatcher_DispatchTask task (testHandler 3)
       (Z.to_nat 3) {| tasksHandled := 0; done := [] |}
     = ({| tasksHandled := 3; done := [tt] |}, Ok tt).
Proof.
  assert (0 < 3 < 2 ^ 31)%Z as H by lia.
  split; [exact H|].
  exact (testDispatcher_loop_inline task 3 H).
Defined.

Lemma UpdateState_then_witness :
  WorkflowType_Name idle = Some "orders"
  /\ touches idle started 0%Z [line "at=update-state"]
     = ([line "at=update-state"; line "touched"], Ok tt)
  /\ Decide CompleteState
       {| deciders := UpdateState touches :: [ships]; last := false |}
       idle started 0%Z []
     = Decide CompleteState {| deciders := [ships]; last := false |}
         idle started 0%Z [line "at=update-state"; line "touched"].
Proof.
  split; [reflexivity|]. split; [reflexivity|].
  exact (proj1 (UpdateState_then CompleteState touches [ships] false idle "orders"
                  started 0%Z [] eq_refl)
           [line "at=update-state"; line "touched"] eq_refl).
Defined.

(** A callback whose second parameter is of another type is refused for it,
    at position 1, though its third parameter is of another type too. *)
Example typeCheck_reports_position :
  typeCheck
    (Some {| TypeOf := reflect.Rtype reflect.Func "func"
                         [named reflect.Ptr "*fsm.FSMContext";
                          named reflect.Ptr "*swf.HistoryEvent";
                          named reflect.Struct "fsm.TestingType"]
                         [named reflect.Interface "fsm.Outcome"];
             Call := fun args => ret ([] : list (@Any Z)) |})
    ["*fsm.FSMContext"; "swf.HistoryEvent"; "*fsm.TestingType"] ["fsm.Outcome"]
    ([] : World)
  = ([], Panic (TypeCheck (ArgumentType 1 "*swf.HistoryEvent" "swf.HistoryEvent"))).
Proof. reflexivity. Qed.
